(** * ShootUp API: a shallow embedding of [main.py] and [schemas.py]

    The service is a thin layer over a MongoDB database.  The embedding
    keeps the shape of the source: the five collections of [schemas.py]
    are lists of records (a collection in its natural order), the pymongo
    calls used by [main.py] are functions on such lists, and every route of
    [main.py] is a computation in a state-and-exception monad over the
    database handle [db] and the process-wide random generator. *)

From Stdlib Require Import ZArith NArith Ascii String Sorted.
From stdpp Require Import base option list strings gmap.

Local Open Scope Z_scope.
Local Open Scope string_scope.
Local Open Scope list_scope.

(** ** ObjectId (bson)

    An ObjectId generated by the driver is a 12-byte value, kept as the
    number the twelve bytes spell in big-endian order; [str(oid)] prints
    it as 24 lower-case hex digits.

    [ObjectId(s)] for a [str] raises [InvalidId] unless [len(s) == 24] and
    [bytes.fromhex(s)] succeeds, and holds the bytes that call returns.
    [bytes.fromhex] reads two hex digits of either case per byte and skips
    ASCII whitespace before a pair, so a string of 24 characters with
    blanks in it is accepted and gives fewer than twelve bytes. *)

Definition ObjectId := N.

Definition hex_value (c : ascii) : option N :=
  let n := N_of_ascii c in
  if ((48 <=? n) && (n <=? 57))%N then Some (n - 48)%N
  else if ((97 <=? n) && (n <=? 102))%N then Some (n - 87)%N
  else if ((65 <=? n) && (n <=? 70))%N then Some (n - 55)%N
  else None.

(** [Py_ISSPACE]: space, tab, line feed, vertical tab, form feed and
    carriage return. *)
Definition is_space (c : ascii) : bool :=
  let n := N_of_ascii c in
  ((n =? 32) || ((9 <=? n) && (n <=? 13)))%N.

(** [bytes.fromhex(s)]; [None] stands for [ValueError]. *)
Fixpoint bytes_fromhex (s : string) : option (list N) :=
  match s with
  | EmptyString => Some []
  | String c rest =>
      if is_space c then bytes_fromhex rest
      else
        match hex_value c, rest with
        | Some top, String c' rest' =>
            match hex_value c' with
            | Some bot => cons (16 * top + bot)%N <$> bytes_fromhex rest'
            | None => None
            end
        | _, _ => None
        end
  end.

Definition big_endian (binary : list N) : N :=
  foldl (λ acc byte, 256 * acc + byte)%N 0%N binary.

(** What an accepted [ObjectId(s)] holds: twelve bytes, which may be the
    [_id] of a document, or fewer, which are the [_id] of none. *)
Inductive parsed :=
| Twelve (oid : ObjectId)
| Fewer (binary : list N).

(** [ObjectId(s)] for a [str] argument: [None] stands for [InvalidId]. *)
Definition ObjectId_parse (s : string) : option parsed :=
  if (String.length s =? 24)%nat then
    match bytes_fromhex s with
    | Some binary =>
        Some (if (length binary =? 12)%nat then Twelve (big_endian binary)
              else Fewer binary)
    | None => None
    end
  else None.

(** The twelve-byte ObjectId that [s] spells, if [ObjectId(s)] holds one:
    [s] is then 24 hex digits. *)
Definition ObjectId_of_str (s : string) : option ObjectId :=
  match ObjectId_parse s with
  | Some (Twelve oid) => Some oid
  | _ => None
  end.

Definition hex_digit (d : N) : ascii :=
  if (d <? 10)%N then ascii_of_N (48 + d) else ascii_of_N (87 + d).

Fixpoint hexlify (digits : nat) (n : N) (acc : string) : string :=
  match digits with
  | O => acc
  | S k => hexlify k (n / 16)%N (String (hex_digit (n mod 16)%N) acc)
  end.

(** [str(oid)]. *)
Definition str_of_ObjectId (oid : ObjectId) : string := hexlify 24 oid EmptyString.

(** The driver gives every inserted document an [_id] that no document of
    the collection carries; the model takes the successor of the largest
    one in use. *)
Definition fresh_ObjectId (used : list ObjectId) : ObjectId :=
  N.succ (foldr N.max 0%N used).

(** ** Documents (schemas.py)

    One record per collection.  Every stored document has the [_id] the
    driver gave it.  [created_at] is the field the routes sort on: a BSON
    date, milliseconds since the epoch, absent from a document that was
    stored without one.  A field that [main.py] reads with
    [doc.get(key, default)] is an [option]; so is a field of type
    [Optional[str]], where [None] also stands for a key that is absent.
    The records are parametrised by the representation of identifiers and
    dates, which is what [serialize_doc] changes. *)

Definition datetime := Z.

(** The text [datetime.isoformat()] returns, kept symbolic. *)
Inductive isotext := isoformat (d : datetime).

Module Event.
Record doc (I D : Type) := mk {
  _id : I;
  created_at : option D;
  code : string;
  title : string;
  date_iso : option string;
  location : option string;
  access : string;
  cover_url : option string;
  participants : option (list string);
  challenges : list string;
  ended : bool;
}.
Arguments mk {I D}.
Arguments _id {I D}.
Arguments created_at {I D}.
Arguments code {I D}.
Arguments title {I D}.
Arguments date_iso {I D}.
Arguments location {I D}.
Arguments access {I D}.
Arguments cover_url {I D}.
Arguments participants {I D}.
Arguments challenges {I D}.
Arguments ended {I D}.
Definition t := doc ObjectId datetime.
Definition json := doc string isotext.

(** [{"$set": {"participants": ps}}] *)
Definition set_participants {I D} (ps : list string) (e : doc I D) : doc I D :=
  mk (_id e) (created_at e) (code e) (title e) (date_iso e) (location e)
     (access e) (cover_url e) (Some ps) (challenges e) (ended e).

(** [e_ser["cover_url"] = url] *)
Definition set_cover_url {I D} (url : option string) (e : doc I D) : doc I D :=
  mk (_id e) (created_at e) (code e) (title e) (date_iso e) (location e)
     (access e) url (participants e) (challenges e) (ended e).
End Event.

Module Media.
Record doc (I D : Type) := mk {
  _id : I;
  created_at : option D;
  event_id : string;
  user_id : string;
  url : string;
  media_type : string;
  challenge : option string;
  likes_count : option Z;
  comments_count : option Z;
}.
Arguments mk {I D}.
Arguments _id {I D}.
Arguments created_at {I D}.
Arguments event_id {I D}.
Arguments user_id {I D}.
Arguments url {I D}.
Arguments media_type {I D}.
Arguments challenge {I D}.
Arguments likes_count {I D}.
Arguments comments_count {I D}.
Definition t := doc ObjectId datetime.
Definition json := doc string isotext.

(** [{"$set": {"likes_count": n}}] *)
Definition set_likes_count {I D} (n : Z) (m : doc I D) : doc I D :=
  mk (_id m) (created_at m) (event_id m) (user_id m) (url m) (media_type m)
     (challenge m) (Some n) (comments_count m).

(** [{"$set": {"comments_count": n}}] *)
Definition set_comments_count {I D} (n : Z) (m : doc I D) : doc I D :=
  mk (_id m) (created_at m) (event_id m) (user_id m) (url m) (media_type m)
     (challenge m) (likes_count m) (Some n).
End Media.

Module Comment.
Record doc (I D : Type) := mk {
  _id : I;
  created_at : option D;
  media_id : string;
  user_id : string;
  text : string;
}.
Arguments mk {I D}.
Arguments _id {I D}.
Arguments created_at {I D}.
Arguments media_id {I D}.
Arguments user_id {I D}.
Arguments text {I D}.
Definition t := doc ObjectId datetime.
Definition json := doc string isotext.
End Comment.

Module Like.
Record t := mk {
  _id : ObjectId;
  media_id : string;
  user_id : string;
}.
End Like.

Module Userprofile.
Record doc (I : Type) := mk {
  _id : I;
  user_id : string;
  username : option string;
  avatar_url : option string;
  bio : option string;
  following_events : option (list string);
}.
Arguments mk {I}.
Arguments _id {I}.
Arguments user_id {I}.
Arguments username {I}.
Arguments avatar_url {I}.
Arguments bio {I}.
Arguments following_events {I}.
Definition t := doc ObjectId.

(** The profile [get_user] makes up when none is stored has no [_id]. *)
Definition json := doc (option string).

(** [{"$set": updates}] with [updates] the fields of the payload that are
    not [None]. *)
Definition set_fields {I} (username' avatar_url' bio' : option string)
    (p : doc I) : doc I :=
  mk (_id p) (user_id p)
     (match username' with Some _ => username' | None => username p end)
     (match avatar_url' with Some _ => avatar_url' | None => avatar_url p end)
     (match bio' with Some _ => bio' | None => bio p end)
     (following_events p).
End Userprofile.

(** ** The database and the pymongo calls of main.py *)

Class Document (A : Type) := doc_id : A → ObjectId.
#[global] Instance Event_document : Document Event.t := Event._id.
#[global] Instance Media_document : Document Media.t := Media._id.
#[global] Instance Comment_document : Document Comment.t := Comment._id.
#[global] Instance Like_document : Document Like.t := Like._id.
#[global] Instance Userprofile_document : Document Userprofile.t := Userprofile._id.

(** [db]: the five collections, each in its natural (insertion) order. *)
Module Db.
Record t := mk {
  event : list Event.t;
  media : list Media.t;
  comment : list Comment.t;
  like : list Like.t;
  userprofile : list Userprofile.t;
}.
End Db.
Definition database := Db.t.

Section Collection.
Context {A : Type} `{Document A}.

(** [coll.find(q)]: the documents that match, in natural order. *)
Definition find (q : A → bool) (coll : list A) : list A := List.filter q coll.

(** [coll.find_one(q)]: the first document that matches. *)
Definition find_one (q : A → bool) (coll : list A) : option A := List.find q coll.

(** [coll.count_documents(q)] *)
Definition count_documents (q : A → bool) (coll : list A) : nat :=
  length (find q coll).

(** [coll.insert_one(d)]: [d] stands for the document without its [_id];
    the result is the collection and [inserted_id]. *)
Definition insert_one (d : ObjectId → A) (coll : list A) : list A * ObjectId :=
  let inserted_id := fresh_ObjectId (doc_id <$> coll) in
  (coll ++ [d inserted_id], inserted_id).

(** [coll.update_one(q, {"$set": ...})]: the first match is updated in
    place, and nothing happens when there is none. *)
Fixpoint update_one (q : A → bool) (upd : A → A) (coll : list A) : list A :=
  match coll with
  | [] => []
  | d :: rest => if q d then upd d :: rest else d :: update_one q upd rest
  end.

(** [coll.update_one(q, u, upsert=True)]: as [update_one] when a document
    matches; otherwise the document [on_insert] builds from the query, the
    update and a fresh [_id] is inserted. *)
Definition update_one_upsert (q : A → bool) (upd : A → A)
    (on_insert : ObjectId → A) (coll : list A) : list A :=
  match find_one q coll with
  | Some _ => update_one q upd coll
  | None => fst (insert_one on_insert coll)
  end.

(** [coll.delete_one(q)]: the first match is removed. *)
Fixpoint delete_one (q : A → bool) (coll : list A) : list A :=
  match coll with
  | [] => []
  | d :: rest => if q d then rest else d :: delete_one q rest
  end.

(** [cursor.sort(key, direction)]: [le a b] says that [a] may come before
    [b].  The server leaves the order of documents with equal keys open;
    the model keeps them in natural order. *)
Fixpoint sort_insert (le : A → A → bool) (d : A) (sorted : list A) : list A :=
  match sorted with
  | [] => [d]
  | d' :: rest => if le d d' then d :: sorted else d' :: sort_insert le d rest
  end.

Definition sort (le : A → A → bool) (cursor : list A) : list A :=
  foldr (sort_insert le) [] cursor.

(** [cursor.limit(n)]: [0] is no limit, and a negative limit counts as its
    absolute value. *)
Definition limit (n : Z) (cursor : list A) : list A :=
  if (n =? 0)%Z then cursor else take (Z.abs_nat n) cursor.

(** The query [{"_id": oid}] for the [_id] of a document. *)
Definition by_id (oid : ObjectId) (d : A) : bool := bool_decide (doc_id d = oid).

(** The query [{"_id": ObjectId(s)}]: every stored [_id] has twelve
    bytes, so fewer bytes match no document. *)
Definition by_parsed (oid : parsed) : A → bool :=
  match oid with
  | Twelve oid => by_id oid
  | Fewer _ => λ _, false
  end.

End Collection.

(** BSON order of the sort keys of main.py: a missing field sorts as
    null, below every date and every string; strings compare as byte
    sequences. *)
Definition option_le {K} (le : K → K → bool) (a b : option K) : bool :=
  match a, b with
  | None, _ => true
  | Some _, None => false
  | Some x, Some y => le x y
  end.

(** [sort(key, 1)] and [sort(key, -1)] for a key function. *)
Definition ascending {A K} (le : K → K → bool) (key : A → K) (a b : A) : bool :=
  le (key a) (key b).
Definition descending {A K} (le : K → K → bool) (key : A → K) (a b : A) : bool :=
  le (key b) (key a).

(** ** Failures

    A route fails with [HTTPException(status_code, detail)], or with an
    exception it does not catch, which the framework answers with status
    500. *)
Inductive exception :=
| TypeError                      (* [db["event"]] when [db] is [None] *)
| ServerSelectionTimeoutError    (* any call on a store that is down *)
| IndexError                     (* a draw from an empty population *)
| AttributeError.                (* [serialize_doc(None)] *)

Inductive failure :=
| HTTPException (status_code : Z) (detail : string)
| Uncaught (e : exception).

Definition status (f : failure) : Z :=
  match f with
  | HTTPException status_code _ => status_code
  | Uncaught _ => 500
  end.

(** The three classes of the error taxonomy and the status each one is
    reported with. *)
Inductive error_class := InvalidArgument | NotFound | ServiceUnavailable.

Definition class_of_status (code : Z) : option error_class :=
  if (code =? 400)%Z then Some InvalidArgument
  else if (code =? 404)%Z then Some NotFound
  else if (code =? 500)%Z then Some ServiceUnavailable
  else None.

Definition error_class_of (f : failure) : option error_class :=
  class_of_status (status f).

Inductive result (A : Type) :=
| Ok (a : A)
| Err (f : failure).
Arguments Ok {A}.
Arguments Err {A}.

(** ** The state of the process

    [db] is the module-level handle of [database.py]: [None] when the
    store is not configured, otherwise a handle to a store that either
    answers or is down.  [random] is the generator [random.choices]
    draws from: the raw draws to come, in order. *)
Inductive handle :=
| NotConfigured
| Unreachable
| Connected (s : database).

Record world := World {
  db : handle;
  random : nat → nat;
}.

(** A route is a computation that reads and writes the world and may
    fail; a failure keeps the writes made before it. *)
Definition api (A : Type) : Type := world → result A * world.

#[global] Instance api_ret : MRet api := λ A a w, (Ok a, w).
#[global] Instance api_bind : MBind api := λ A B k m w,
  match m w with
  | (Ok a, w') => k a w'
  | (Err f, w') => (Err f, w')
  end.

#[global] Instance api_fmap : FMap api := λ A B g m w,
  match m w with
  | (Ok a, w') => (Ok (g a), w')
  | (Err f, w') => (Err f, w')
  end.

Definition raise {A} (f : failure) : api A := λ w, (Err f, w).

(** [db is None] *)
Definition db_is_None : api bool :=
  λ w, (Ok (match db w with NotConfigured => true | _ => false end), w).

(** A read [db[coll].op(...)]: subscripting [None] is a [TypeError], and a
    store that is down raises once the driver has given up. *)
Definition query {A} (op : database → A) : api A :=
  λ w, match db w with
       | NotConfigured => (Err (Uncaught TypeError), w)
       | Unreachable => (Err (Uncaught ServerSelectionTimeoutError), w)
       | Connected s => (Ok (op s), w)
       end.

(** A write [db[coll].op(...)], with the value the call returns. *)
Definition command {A} (op : database → database * A) : api A :=
  λ w, match db w with
       | NotConfigured => (Err (Uncaught TypeError), w)
       | Unreachable => (Err (Uncaught ServerSelectionTimeoutError), w)
       | Connected s =>
           let '(s', a) := op s in (Ok a, World (Connected s') (random w))
       end.

(** [ObjectId(s)] inside [try: ... except Exception: raise HTTPException]. *)
Definition try_ObjectId (s : string) (otherwise : failure) : api parsed :=
  match ObjectId_parse s with
  | Some oid => mret oid
  | None => raise otherwise
  end.

(** ** Python values used by the routes *)

(** [str.upper()] of ASCII text: the letters [a]-[z] are mapped and every
    other ASCII character is kept.  Python also maps letters outside
    ASCII, which this function leaves as they are: what it returns is
    relied on for ASCII text only. *)
Definition upper_char (c : ascii) : ascii :=
  let n := N_of_ascii c in
  if ((97 <=? n) && (n <=? 122))%N then ascii_of_N (n - 32) else c.

Fixpoint upper (s : string) : string :=
  match s with
  | EmptyString => EmptyString
  | String c rest => String (upper_char c) (upper rest)
  end.

(** Truth value of an [Optional[str]]: [None] and the empty string are
    false. *)
Definition truthy (v : option string) : bool :=
  match v with
  | Some s => negb (String.eqb s EmptyString)
  | None => false
  end.

(** [string.ascii_uppercase + string.digits] *)
Definition ascii_uppercase : string := "ABCDEFGHIJKLMNOPQRSTUVWXYZ".
Definition digits : string := "0123456789".

(** [random.choices(population, k=k)]: [k] draws with replacement, each
    [population[floor(random() * n)]]; the index is the next raw draw
    reduced below [n].  An empty population is an [IndexError]. *)
Definition choice (population : list ascii) : api ascii :=
  λ w, let n := length population in
       let w' := World (db w) (λ i, random w (S i)) in
       match population !! (random w O mod n)%nat with
       | Some c => (Ok c, w')
       | None => (Err (Uncaught IndexError), w')
       end.

Fixpoint choices (population : list ascii) (k : nat) : api (list ascii) :=
  match k with
  | O => mret []
  | S k' => c ← choice population; cs ← choices population k'; mret (c :: cs)
  end.

Definition generate_code (length : nat) : api string :=
  let alphabet := (ascii_uppercase +:+ digits)%string in
  cs ← choices (list_ascii_of_string alphabet) length;
  mret (string_of_list_ascii cs).

(** ** Request models *)

Module CreateEvent.
Record t := mk {
  title : string;
  date_iso : option string;
  location : option string;
  access : string;
  cover_url : option string;
  challenges : list string;
}.
End CreateEvent.

Module JoinEvent.
Record t := mk {
  code : string;
  user_id : string;
  username : option string;
}.
End JoinEvent.

Module UploadMedia.
Record t := mk {
  event_id : string;
  user_id : string;
  url : string;
  media_type : string;
  challenge : option string;
}.
End UploadMedia.

Module ToggleLike.
Record t := mk { user_id : string }.
End ToggleLike.

Module AddComment.
Record t := mk { user_id : string; text : string }.
End AddComment.

Module UpdateUser.
Record t := mk {
  username : option string;
  avatar_url : option string;
  bio : option string;
}.
End UpdateUser.

(** ** serialize_doc

    On a document of the store [serialize_doc] turns the [ObjectId] into
    its string and a date into its ISO text and keeps every other field. *)

Definition serialize_event (e : Event.t) : Event.json :=
  Event.mk (str_of_ObjectId (Event._id e)) (isoformat <$> Event.created_at e)
    (Event.code e) (Event.title e) (Event.date_iso e) (Event.location e)
    (Event.access e) (Event.cover_url e) (Event.participants e)
    (Event.challenges e) (Event.ended e).

Definition serialize_media (m : Media.t) : Media.json :=
  Media.mk (str_of_ObjectId (Media._id m)) (isoformat <$> Media.created_at m)
    (Media.event_id m) (Media.user_id m) (Media.url m) (Media.media_type m)
    (Media.challenge m) (Media.likes_count m) (Media.comments_count m).

Definition serialize_comment (c : Comment.t) : Comment.json :=
  Comment.mk (str_of_ObjectId (Comment._id c))
    (isoformat <$> Comment.created_at c)
    (Comment.media_id c) (Comment.user_id c) (Comment.text c).

Definition serialize_profile (p : Userprofile.t) : Userprofile.json :=
  Userprofile.mk (Some (str_of_ObjectId (Userprofile._id p)))
    (Userprofile.user_id p) (Userprofile.username p)
    (Userprofile.avatar_url p) (Userprofile.bio p)
    (Userprofile.following_events p).

(** [serialize_doc(d)] where [d] is what [find_one] returned: [None] has
    no [items]. *)
Definition serialize_found {A J} (serialize : A → J) (d : option A) : api J :=
  match d with
  | Some d => mret (serialize d)
  | None => raise (Uncaught AttributeError)
  end.

(** Writes to one collection of [db]. *)
Definition on_event {R} (op : list Event.t → list Event.t * R)
    (s : database) : database * R :=
  let '(c, r) := op (Db.event s) in
  (Db.mk c (Db.media s) (Db.comment s) (Db.like s) (Db.userprofile s), r).
Definition on_media {R} (op : list Media.t → list Media.t * R)
    (s : database) : database * R :=
  let '(c, r) := op (Db.media s) in
  (Db.mk (Db.event s) c (Db.comment s) (Db.like s) (Db.userprofile s), r).
Definition on_comment {R} (op : list Comment.t → list Comment.t * R)
    (s : database) : database * R :=
  let '(c, r) := op (Db.comment s) in
  (Db.mk (Db.event s) (Db.media s) c (Db.like s) (Db.userprofile s), r).
Definition on_like {R} (op : list Like.t → list Like.t * R)
    (s : database) : database * R :=
  let '(c, r) := op (Db.like s) in
  (Db.mk (Db.event s) (Db.media s) (Db.comment s) c (Db.userprofile s), r).
Definition on_userprofile {R} (op : list Userprofile.t → list Userprofile.t * R)
    (s : database) : database * R :=
  let '(c, r) := op (Db.userprofile s) in
  (Db.mk (Db.event s) (Db.media s) (Db.comment s) (Db.like s) c, r).

(** A write whose result the route does not use. *)
Definition discard {A} (op : list A → list A) (coll : list A) : list A * unit :=
  (op coll, tt).

(** ** Routes: events *)

Definition not_configured {A} : api A :=
  raise (HTTPException 500 "Database not configured").

(** [event_doc] is inserted as it is built: it has no [created_at]. *)
Definition create_event (payload : CreateEvent.t) : api Event.json :=
  none ← db_is_None;
  if none : bool then not_configured else
  code ← generate_code 6;
  let event_doc _id : Event.t :=
    Event.mk _id None code (CreateEvent.title payload)
      (CreateEvent.date_iso payload) (CreateEvent.location payload)
      (CreateEvent.access payload) (CreateEvent.cover_url payload)
      (Some []) (CreateEvent.challenges payload) false in
  inserted_id ← command (on_event (insert_one event_doc));
  mret (serialize_event (event_doc inserted_id)).

Module ExploreItem.
Record t := mk {
  event : Event.json;
  participants_count : nat;
  media_count : nat;
}.
End ExploreItem.

(** The loop over the cursor adds [participants_count] and [media_count]
    to the serialized event and fills in a missing cover. *)
Definition explore_events (limit_ : Z) : api (list ExploreItem.t) :=
  none ← db_is_None;
  if none : bool then not_configured else
  cursor ← query (λ s,
    limit limit_
      (sort (descending (option_le Z.leb) Event.created_at)
        (find (λ e, bool_decide (Event.access e = "public")) (Db.event s))));
  mapM (λ e : Event.t,
    let participants_count := length (default [] (Event.participants e)) in
    let of_event (m : Media.t) :=
      bool_decide (Media.event_id m = str_of_ObjectId (Event._id e)) in
    media_count ← query (λ s, count_documents of_event (Db.media s));
    let e_ser := serialize_event e in
    e_ser ←
      (if truthy (Event.cover_url e_ser) then mret e_ser else
       first_media ← query (λ s, find_one of_event (Db.media s));
       match first_media with
       | Some m => mret (Event.set_cover_url (Some (Media.url m)) e_ser)
       | None => mret e_ser
       end);
    mret (ExploreItem.mk e_ser participants_count media_count)) cursor.

(** [find_one({"code": code.upper()}) or find_one({"code": code})] *)
Definition find_by_code (code : string) : api (option Event.t) :=
  event ← query (λ s,
    find_one (λ e, bool_decide (Event.code e = upper code)) (Db.event s));
  match event with
  | Some _ => mret event
  | None =>
      query (λ s, find_one (λ e, bool_decide (Event.code e = code)) (Db.event s))
  end.

(** [participants] is a Python [set]; the order in which [list] lists it
    is not specified, and [elements] is one listing without repetition.
    The upsert with [$setOnInsert] leaves a profile that exists as it is. *)
Definition join_event (payload : JoinEvent.t) : api Event.json :=
  none ← db_is_None;
  if none : bool then not_configured else
  event ← find_by_code (JoinEvent.code payload);
  match event with
  | None => raise (HTTPException 404 "Event not found")
  | Some event =>
      let participants : gset string :=
        list_to_set (default [] (Event.participants event)) in
      let participants := participants ∪ {[ JoinEvent.user_id payload ]} in
      command (on_event (discard
        (update_one (by_id (Event._id event))
           (Event.set_participants (elements participants)))));;
      command (on_userprofile (discard
        (update_one_upsert
           (λ p, bool_decide (Userprofile.user_id p = JoinEvent.user_id payload))
           id
           (λ _id, Userprofile.mk _id (JoinEvent.user_id payload)
              (Some (if truthy (JoinEvent.username payload)
                     then default EmptyString (JoinEvent.username payload)
                     else "Guest"))
              None None (Some [])))));;
      event ← query (λ s, find_one (by_id (Event._id event)) (Db.event s));
      serialize_found serialize_event event
  end.

Definition get_event_by_code (code : string) : api Event.json :=
  event ← find_by_code code;
  match event with
  | None => raise (HTTPException 404 "Event not found")
  | Some event => mret (serialize_event event)
  end.

Definition get_event (event_id : string) : api Event.json :=
  obj_id ← try_ObjectId event_id (HTTPException 400 "Invalid event id");
  event ← query (λ s, find_one (by_parsed obj_id) (Db.event s));
  match event with
  | None => raise (HTTPException 404 "Event not found")
  | Some event => mret (serialize_event event)
  end.

(** ** Routes: media *)

Definition upload_media (payload : UploadMedia.t) : api Media.json :=
  none ← db_is_None;
  if none : bool then not_configured else
  obj_id ← try_ObjectId (UploadMedia.event_id payload)
             (HTTPException 400 "Invalid event id");
  event ← query (λ s, find_one (by_parsed obj_id) (Db.event s));
  match event with
  | None => raise (HTTPException 404 "Event not found")
  | Some _ =>
      let media_doc _id : Media.t :=
        Media.mk _id None (UploadMedia.event_id payload)
          (UploadMedia.user_id payload) (UploadMedia.url payload)
          (UploadMedia.media_type payload) (UploadMedia.challenge payload)
          (Some 0) (Some 0) in
      inserted_id ← command (on_media (insert_one media_doc));
      mret (serialize_media (media_doc inserted_id))
  end.

Definition list_media_for_event (event_id sort_ : string)
    : api (list Media.json) :=
  try_ObjectId event_id (HTTPException 400 "Invalid event id");;
  query (λ s,
    let cursor :=
      find (λ m, bool_decide (Media.event_id m = event_id)) (Db.media s) in
    let cursor :=
      if String.eqb sort_ "time" then
        sort (descending (option_le Z.leb) Media.created_at) cursor
      else if String.eqb sort_ "participant" then
        sort (ascending String.leb Media.user_id) cursor
      else if String.eqb sort_ "challenge" then
        sort (ascending (option_le String.leb) Media.challenge) cursor
      else cursor in
    serialize_media <$> cursor).

(** The query [{"media_id": media_id, "user_id": user_id}]. *)
Definition like_q (media_id user_id : string) (l : Like.t) : bool :=
  bool_decide (Like.media_id l = media_id)
  && bool_decide (Like.user_id l = user_id).

(** The counters [likes_count] and [comments_count] are kept in [Z].
    [update_one] encodes the count it writes as a BSON integer and raises
    [OverflowError] for a count above [2^63 - 1]; the routes below write
    every count, so they are the routes of [main.py] for counts up to
    [2^63 - 1]. *)
Definition toggle_like (media_id : string) (payload : ToggleLike.t)
    : api Media.json :=
  obj_id ← try_ObjectId media_id (HTTPException 400 "Invalid media id");
  media ← query (λ s, find_one (by_parsed obj_id) (Db.media s));
  match media with
  | None => raise (HTTPException 404 "Media not found")
  | Some media =>
      let like_q := like_q media_id (ToggleLike.user_id payload) in
      exists_ ← query (λ s, find_one like_q (Db.like s));
      delta ←
        match exists_ with
        | Some exists_ =>
            command (on_like (discard (delete_one (by_id (Like._id exists_)))));;
            mret (-1)
        | None =>
            command (on_like (insert_one
              (λ _id, Like.mk _id media_id (ToggleLike.user_id payload))));;
            mret 1
        end;
      let new_count := Z.max 0 (default 0 (Media.likes_count media) + delta) in
      command (on_media (discard
        (update_one (by_id (Media._id media))
           (Media.set_likes_count new_count))));;
      updated ← query (λ s, find_one (by_id (Media._id media)) (Db.media s));
      serialize_found serialize_media updated
  end.

Definition list_comments (media_id : string) : api (list Comment.json) :=
  try_ObjectId media_id (HTTPException 400 "Invalid media id");;
  query (λ s,
    serialize_comment <$>
      sort (ascending (option_le Z.leb) Comment.created_at)
        (find (λ c, bool_decide (Comment.media_id c = media_id))
           (Db.comment s))).

(** The value [()] stands for the acknowledgement [{"ok": True}]. *)
Definition add_comment (media_id : string) (payload : AddComment.t)
    : api unit :=
  obj_id ← try_ObjectId media_id (HTTPException 400 "Invalid media id");
  media ← query (λ s, find_one (by_parsed obj_id) (Db.media s));
  match media with
  | None => raise (HTTPException 404 "Media not found")
  | Some media =>
      let comment_doc _id : Comment.t :=
        Comment.mk _id None media_id (AddComment.user_id payload)
          (AddComment.text payload) in
      command (on_comment (insert_one comment_doc));;
      let new_count := default 0 (Media.comments_count media) + 1 in
      command (on_media (discard
        (update_one (by_id (Media._id media))
           (Media.set_comments_count new_count))));;
      mret ()
  end.

(** ** Routes: users *)

Module UserOut.
Record t := mk {
  profile : Userprofile.json;
  joined_events : list Event.json;
  uploads_count : nat;
}.
End UserOut.

Definition get_user (user_id : string) : api UserOut.t :=
  prof ← query (λ s,
    find_one (λ p, bool_decide (Userprofile.user_id p = user_id))
      (Db.userprofile s));
  let out : Userprofile.json :=
    match prof with
    | Some prof => serialize_profile prof
    | None => Userprofile.mk None user_id (Some "Guest") None None (Some [])
    end in
  joined ← query (λ s,
    find (λ e, bool_decide (user_id ∈ default [] (Event.participants e)))
      (Db.event s));
  uploads ← query (λ s,
    count_documents (λ m, bool_decide (Media.user_id m = user_id))
      (Db.media s));
  mret (UserOut.mk out (serialize_event <$> joined) uploads).

(** [None] stands for the acknowledgement [{"ok": True}] of an update
    that names no field. *)
Definition update_user (user_id : string) (payload : UpdateUser.t)
    : api (option Userprofile.json) :=
  let username := UpdateUser.username payload in
  let avatar_url := UpdateUser.avatar_url payload in
  let bio := UpdateUser.bio payload in
  match username, avatar_url, bio with
  | None, None, None => mret None
  | _, _, _ =>
      command (on_userprofile (discard
        (update_one_upsert
           (λ p, bool_decide (Userprofile.user_id p = user_id))
           (Userprofile.set_fields username avatar_url bio)
           (λ _id, Userprofile.mk _id user_id username avatar_url bio None))));;
      prof ← query (λ s,
        find_one (λ p, bool_decide (Userprofile.user_id p = user_id))
          (Db.userprofile s));
      Some <$> serialize_found serialize_profile prof
  end.

(** ** The API: one request, one route

    The routes [read_root], [hello] and [test_database] are diagnostics
    that write nothing; they are left out. *)

Inductive request :=
| POST_events (payload : CreateEvent.t)
| GET_events_explore (limit_ : Z)
| POST_events_join (payload : JoinEvent.t)
| GET_events_by_code (code : string)
| GET_events (event_id : string)
| POST_media (payload : UploadMedia.t)
| GET_media_event (event_id sort_ : string)
| POST_media_like (media_id : string) (payload : ToggleLike.t)
| GET_media_comments (media_id : string)
| POST_media_comments (media_id : string) (payload : AddComment.t)
| GET_user (user_id : string)
| PUT_user (user_id : string) (payload : UpdateUser.t).

Inductive response :=
| an_event (e : Event.json)
| some_events (events : list ExploreItem.t)
| a_media (m : Media.json)
| media_items (items : list Media.json)
| comment_items (items : list Comment.json)
| ok_true
| a_user (u : UserOut.t)
| a_profile (p : Userprofile.json).

Definition route (r : request) : api response :=
  match r with
  | POST_events payload => an_event <$> create_event payload
  | GET_events_explore limit_ => some_events <$> explore_events limit_
  | POST_events_join payload => an_event <$> join_event payload
  | GET_events_by_code code => an_event <$> get_event_by_code code
  | GET_events event_id => an_event <$> get_event event_id
  | POST_media payload => a_media <$> upload_media payload
  | GET_media_event event_id sort_ =>
      media_items <$> list_media_for_event event_id sort_
  | POST_media_like media_id payload => a_media <$> toggle_like media_id payload
  | GET_media_comments media_id => comment_items <$> list_comments media_id
  | POST_media_comments media_id payload =>
      (λ _, ok_true) <$> add_comment media_id payload
  | GET_user user_id => a_user <$> get_user user_id
  | PUT_user user_id payload =>
      from_option a_profile ok_true <$> update_user user_id payload
  end.

(** * Properties

    Names used in the statements. *)

(** [media.get("likes_count", 0)] *)
Definition likes (media : Media.t) : Z := default 0 (Media.likes_count media).

(** [media.get("comments_count", 0)] *)
Definition comments (media : Media.t) : Z :=
  default 0 (Media.comments_count media).

(** From [s] to [s'] no Comment is removed, and every Media stays where it
    is, with its [_id] and a [comments_count] that is either untouched or,
    if [bump] allows it, the value read plus one. *)
Definition media_kept (bump : bool) (s s' : database) : Prop :=
  Db.comment s `prefix_of` Db.comment s'
  ∧ ∀ (i : nat) (media : Media.t),
      Db.media s !! i = Some media →
      ∃ media' : Media.t,
        Db.media s' !! i = Some media'
        ∧ Media._id media' = Media._id media
        ∧ (comments media ≤ comments media')%Z
        ∧ (Media.comments_count media' = Media.comments_count media
           ∨ bump = true
             ∧ Media.comments_count media' = Some (comments media + 1)).

(** The Like row [l] is a like of the Media with [_id] [oid]: its
    [media_id] is a string of that ObjectId, in either case of the hex
    digits. *)
Definition refers_to (oid : ObjectId) (l : Like.t) : bool :=
  bool_decide (ObjectId_of_str (Like.media_id l) = Some oid).

(** The denormalised counter agrees with the like collection: [_id]s are
    distinct, a pair [(media_id, user_id)] has at most one row, every row
    is a like of a stored Media, and the [likes_count] of a Media is the
    number of its rows. *)
Record likes_consistent (s : database) : Prop := {
  like_ids : NoDup (doc_id <$> Db.like s);
  like_pairs :
    NoDup ((λ l, (Like.media_id l, Like.user_id l)) <$> Db.like s);
  media_ids : NoDup (doc_id <$> Db.media s);
  like_refs :
    Forall (λ l, ∃ oid, oid ∈ doc_id <$> Db.media s ∧ refers_to oid l = true)
      (Db.like s);
  likes_counted :
    Forall (λ m, Media.likes_count m
                 = Some (Z.of_nat (count_documents (refers_to (Media._id m))
                                     (Db.like s))))
      (Db.media s);
}.

(** What one request does to the media and like collections. *)
Inductive likes_effect (s s' : database) : Prop :=
| effect_none :
    Db.media s' = Db.media s → Db.like s' = Db.like s → likes_effect s s'
| effect_upload (new : Media.t) :
    Db.media s' = Db.media s ++ [new] →
    Media._id new = fresh_ObjectId (doc_id <$> Db.media s) →
    Media.likes_count new = Some 0 →
    Db.like s' = Db.like s → likes_effect s s'
| effect_comment (q : Media.t → bool) (n : Z) :
    Db.media s' = update_one q (Media.set_comments_count n) (Db.media s) →
    Db.like s' = Db.like s → likes_effect s s'
| effect_unlike (media_id user_id : string) (obj_id : ObjectId)
    (media : Media.t) (l : Like.t) :
    ObjectId_of_str media_id = Some obj_id →
    find_one (by_id obj_id) (Db.media s) = Some media →
    find_one (like_q media_id user_id) (Db.like s) = Some l →
    Db.like s' = delete_one (by_id (Like._id l)) (Db.like s) →
    Db.media s'
    = update_one (by_id obj_id)
        (Media.set_likes_count (Z.max 0 (likes media + -1))) (Db.media s) →
    likes_effect s s'
| effect_like (media_id user_id : string) (obj_id : ObjectId)
    (media : Media.t) :
    ObjectId_of_str media_id = Some obj_id →
    find_one (by_id obj_id) (Db.media s) = Some media →
    find_one (like_q media_id user_id) (Db.like s) = None →
    Db.like s'
    = Db.like s
      ++ [Like.mk (fresh_ObjectId (doc_id <$> Db.like s)) media_id user_id] →
    Db.media s'
    = update_one (by_id obj_id)
        (Media.set_likes_count (Z.max 0 (likes media + 1))) (Db.media s) →
    likes_effect s s'.

(** One request served on a connected store takes [s] to [s']. *)
Definition step (s s' : database) : Prop :=
  ∃ r rnd, db (route r (World (Connected s) rnd)).2 = Connected s'.

(** Requests served one after the other. *)
Definition serve_all (rs : list request) (w : world) : world :=
  foldl (λ w r, (route r w).2) w rs.

(** [set(event.get("participants", []))] *)
Definition participant_set {I D} (event : Event.doc I D) : gset string :=
  list_to_set (default [] (Event.participants event)).

(** The event [find_by_code] returns on a connected store. *)
Definition event_with_code (code : string) (coll : list Event.t)
    : option Event.t :=
  match find_one (λ e, bool_decide (Event.code e = upper code)) coll with
  | Some event => Some event
  | None => find_one (λ e, bool_decide (Event.code e = code)) coll
  end.

(** What join-event writes for a found event: [list(participants)] after
    [participants.add(user_id)], and the two collections it updates. *)
Definition joined_participants (event : Event.t) (user_id : string)
    : list string :=
  elements (participant_set event ∪ {[ user_id ]}).

Definition joined_events (event : Event.t) (user_id : string)
    (coll : list Event.t) : list Event.t :=
  update_one (by_id (Event._id event))
    (Event.set_participants (joined_participants event user_id)) coll.

Definition joined_profiles (payload : JoinEvent.t) (coll : list Userprofile.t)
    : list Userprofile.t :=
  update_one_upsert
    (λ p, bool_decide (Userprofile.user_id p = JoinEvent.user_id payload))
    id
    (λ _id, Userprofile.mk _id (JoinEvent.user_id payload)
       (Some (if truthy (JoinEvent.username payload)
              then default EmptyString (JoinEvent.username payload)
              else "Guest"))
       None None (Some []))
    coll.

(** The item explore-events builds for an event [e] of the store [s]. *)
Definition explore_item (s : database) (e : Event.t) : ExploreItem.t :=
  let of_event (m : Media.t) :=
    bool_decide (Media.event_id m = str_of_ObjectId (Event._id e)) in
  let e_ser := serialize_event e in
  ExploreItem.mk
    (if truthy (Event.cover_url e_ser) then e_ser
     else match find_one of_event (Db.media s) with
          | Some m => Event.set_cover_url (Some (Media.url m)) e_ser
          | None => e_ser
          end)
    (length (default [] (Event.participants e)))
    (count_documents of_event (Db.media s)).

(** The events explore-events reads, in the order it returns them. *)
Definition explored (limit_ : Z) (s : database) : list Event.t :=
  limit limit_
    (sort (descending (option_le Z.leb) Event.created_at)
       (find (λ e, bool_decide (Event.access e = "public")) (Db.event s))).

(** How a request ends: with a response, or with a failure of some
    class of the taxonomy. *)
Inductive outcome := succeeds | fails (c : error_class).

Definition outcome_of {A} (r : result A) : option outcome :=
  match r with
  | Ok _ => Some succeeds
  | Err f => fails <$> error_class_of f
  end.

(** [ObjectId(s)] raises [InvalidId]. *)
Definition malformed (s : string) : bool :=
  match ObjectId_parse s with
  | None => true
  | Some _ => false
  end.

(** What each request comes to when [db] is [None] or the store is down.
    The four routes that test [db is None] fail with status 500 on a
    [None] handle before anything else; on a store that is down, and in
    the routes without the test, the first call on [db] raises, which is
    status 500 as well.  A route that validates an identifier first
    answers a malformed one with status 400, and an update of a user that
    names no field returns before any call on [db]. *)
Definition without_store (h : handle) (r : request) : outcome :=
  match r with
  | POST_events _ | GET_events_explore _ | POST_events_join _
  | GET_events_by_code _ | GET_user _ => fails ServiceUnavailable
  | POST_media payload =>
      match h with
      | NotConfigured => fails ServiceUnavailable
      | _ =>
          if malformed (UploadMedia.event_id payload)
          then fails InvalidArgument else fails ServiceUnavailable
      end
  | GET_events id | GET_media_event id _ | POST_media_like id _
  | GET_media_comments id | POST_media_comments id _ =>
      if malformed id then fails InvalidArgument else fails ServiceUnavailable
  | PUT_user _ payload =>
      match payload with
      | UpdateUser.mk None None None => succeeds
      | _ => fails ServiceUnavailable
      end
  end.

(** The characters [A]-[Z] and [0]-[9]. *)
Definition upper_alnum (c : ascii) : bool :=
  let n := N_of_ascii c in
  (((65 <=? n) && (n <=? 90)) || ((48 <=? n) && (n <=? 57)))%N.

(** The code six draws spell: draw [i] picks the character at index
    [rnd i mod 36] of the alphabet. *)
Definition code_of_draws (rnd : nat → nat) : string :=
  let alphabet := list_ascii_of_string (ascii_uppercase +:+ digits)%string in
  string_of_list_ascii
    ((λ i, nth (rnd i mod length alphabet)%nat alphabet "0"%char) <$> seq 0 6).

(** Stores used as concrete inputs. *)
Definition a_media_doc : Media.t :=
  Media.mk 10%N None "000000000000000000000001" "u0" "http://img/1" "photo"
    None (Some 0) (Some 0).

(** One media and no like. *)
Definition fresh_media_db : database := Db.mk [] [a_media_doc] [] [] [].

(** The same media with a Like row of ["u1"] although its [likes_count]
    is 0. *)
Definition drifted_db : database :=
  Db.mk [] [a_media_doc] []
    [Like.mk 1%N "00000000000000000000000a" "u1"] [].

Definition an_event_doc : Event.t :=
  Event.mk 1%N None "DKRY5C" "Beach Day" None None "public" None (Some [])
    [] false.

(** One event and nothing else. *)
Definition one_event_db : database := Db.mk [an_event_doc] [] [] [] [].

(** Two media of one event, the later one by the user who sorts first. *)
Definition two_media_db : database :=
  Db.mk [an_event_doc]
    [Media.mk 10%N None "000000000000000000000001" "zoe" "http://img/1" "photo"
       None (Some 0) (Some 0);
     Media.mk 11%N None "000000000000000000000001" "adam" "http://img/2" "photo"
       None (Some 0) (Some 0)]
    [] [] [].

Definition empty_db : database := Db.mk [] [] [] [] [].

(** Two public events made through the API, one after the other, on an
    empty store. *)
Definition after_two_creations : world :=
  let w0 := World (Connected empty_db) (λ i, i) in
  let w1 := (create_event
               (CreateEvent.mk "First" None None "public" None []) w0).2 in
  (create_event (CreateEvent.mk "Second" None None "public" None []) w1).2.

(** An event is created, a media is uploaded to it, and a user likes it. *)
Definition a_short_run : list request :=
  [POST_events (CreateEvent.mk "Beach Day" None None "public" None []);
   POST_media (UploadMedia.mk "000000000000000000000001" "u0" "http://img/1"
                 "photo" None);
   POST_media_like "000000000000000000000001" (ToggleLike.mk "u1")].

(** The media gets a comment, and the like is taken back. *)
Definition a_comment_then_a_like : list request :=
  [POST_media_comments "000000000000000000000001" (AddComment.mk "u1" "nice");
   POST_media_like "000000000000000000000001" (ToggleLike.mk "u1")].

(** What the request [r] writes, collection by collection. *)
Inductive store_effect (r : request) (s s' : database) : Prop :=
| effect_read : s' = s → store_effect r s s'
| effect_created (payload : CreateEvent.t) (code : string) :
    r = POST_events payload →
    s' = Db.mk
           (Db.event s
            ++ [Event.mk (fresh_ObjectId (doc_id <$> Db.event s)) None code
                  (CreateEvent.title payload) (CreateEvent.date_iso payload)
                  (CreateEvent.location payload) (CreateEvent.access payload)
                  (CreateEvent.cover_url payload) (Some [])
                  (CreateEvent.challenges payload) false])
           (Db.media s) (Db.comment s) (Db.like s) (Db.userprofile s) →
    store_effect r s s'
| effect_joined (payload : JoinEvent.t) (event : Event.t) :
    r = POST_events_join payload →
    event_with_code (JoinEvent.code payload) (Db.event s) = Some event →
    s' = Db.mk (joined_events event (JoinEvent.user_id payload) (Db.event s))
           (Db.media s) (Db.comment s) (Db.like s)
           (joined_profiles payload (Db.userprofile s)) →
    store_effect r s s'
| effect_uploaded (payload : UploadMedia.t) (obj_id : ObjectId)
    (event : Event.t) :
    r = POST_media payload →
    ObjectId_of_str (UploadMedia.event_id payload) = Some obj_id →
    find_one (by_id obj_id) (Db.event s) = Some event →
    s' = Db.mk (Db.event s)
           (Db.media s
            ++ [Media.mk (fresh_ObjectId (doc_id <$> Db.media s)) None
                  (UploadMedia.event_id payload) (UploadMedia.user_id payload)
                  (UploadMedia.url payload) (UploadMedia.media_type payload)
                  (UploadMedia.challenge payload) (Some 0) (Some 0)])
           (Db.comment s) (Db.like s) (Db.userprofile s) →
    store_effect r s s'
| effect_unliked (media_id user_id : string) (obj_id : ObjectId)
    (media : Media.t) (l : Like.t) :
    r = POST_media_like media_id (ToggleLike.mk user_id) →
    ObjectId_of_str media_id = Some obj_id →
    find_one (by_id obj_id) (Db.media s) = Some media →
    find_one (like_q media_id user_id) (Db.like s) = Some l →
    s' = Db.mk (Db.event s)
           (update_one (by_id obj_id)
              (Media.set_likes_count (Z.max 0 (likes media + -1)))
              (Db.media s))
           (Db.comment s)
           (delete_one (by_id (Like._id l)) (Db.like s))
           (Db.userprofile s) →
    store_effect r s s'
| effect_liked (media_id user_id : string) (obj_id : ObjectId)
    (media : Media.t) :
    r = POST_media_like media_id (ToggleLike.mk user_id) →
    ObjectId_of_str media_id = Some obj_id →
    find_one (by_id obj_id) (Db.media s) = Some media →
    find_one (like_q media_id user_id) (Db.like s) = None →
    s' = Db.mk (Db.event s)
           (update_one (by_id obj_id)
              (Media.set_likes_count (Z.max 0 (likes media + 1)))
              (Db.media s))
           (Db.comment s)
           (Db.like s
            ++ [Like.mk (fresh_ObjectId (doc_id <$> Db.like s))
                  media_id user_id])
           (Db.userprofile s) →
    store_effect r s s'
| effect_commented (media_id : string) (payload : AddComment.t)
    (obj_id : ObjectId) (media : Media.t) :
    r = POST_media_comments media_id payload →
    ObjectId_of_str media_id = Some obj_id →
    find_one (by_id obj_id) (Db.media s) = Some media →
    s' = Db.mk (Db.event s)
           (update_one (by_id obj_id)
              (Media.set_comments_count (comments media + 1)) (Db.media s))
           (Db.comment s
            ++ [Comment.mk (fresh_ObjectId (doc_id <$> Db.comment s)) None
                  media_id (AddComment.user_id payload)
                  (AddComment.text payload)])
           (Db.like s) (Db.userprofile s) →
    store_effect r s s'
| effect_user_updated (user_id : string) (payload : UpdateUser.t) :
    r = PUT_user user_id payload →
    payload ≠ UpdateUser.mk None None None →
    s' = Db.mk (Db.event s) (Db.media s) (Db.comment s) (Db.like s)
           (update_one_upsert
              (λ p, bool_decide (Userprofile.user_id p = user_id))
              (Userprofile.set_fields (UpdateUser.username payload)
                 (UpdateUser.avatar_url payload) (UpdateUser.bio payload))
              (λ _id, Userprofile.mk _id user_id (UpdateUser.username payload)
                 (UpdateUser.avatar_url payload) (UpdateUser.bio payload) None)
              (Db.userprofile s)) →
    store_effect r s s'.

(** A Media with its two counters blanked: the fields no route writes
    after the upload. *)
Definition media_core (m : Media.t) : Media.t :=
  Media.set_likes_count 0 (Media.set_comments_count 0 m).

(** An Event with its participants blanked. *)
Definition event_core (e : Event.t) : Event.t := Event.set_participants [] e.

(** The store with one event, which ["u1"] has joined. *)
Definition joined_once_db : database :=
  Db.mk [Event.set_participants ["u1"] an_event_doc] [] [] []
    [Userprofile.mk 1%N "u1" (Some "Guest") None None (Some [])].

(** One event whose [_id] has a letter among its hex digits. *)
Definition lettered_event_db : database :=
  Db.mk [Event.mk 10%N None "DKRY5C" "Beach Day" None None "public" None
           (Some []) [] false] [] [] [] [].



(** The [k] low bytes of [n], most significant first. *)
Fixpoint big_endian_bytes (k : nat) (n : N) : list N :=
  match k with
  | O => []
  | S k' => big_endian_bytes k' (n / 256)%N ++ [(n mod 256)%N]
  end.

(** Text of ASCII characters only, on which [upper] is [str.upper()]. *)
Definition is_ascii (s : string) : bool :=
  forallb (λ c, (N_of_ascii c <? 128)%N) (list_ascii_of_string s).

(** ** Unfolding a route *)

Arguments str_of_ObjectId : simpl never.
Arguments ObjectId_of_str : simpl never.
Arguments ObjectId_parse : simpl never.

Ltac api_unfold :=
  unfold mbind, api_bind, mret, api_ret, fmap, api_fmap, raise, query, command,
    db_is_None, try_ObjectId, not_configured, serialize_found,
    on_event, on_media, on_comment, on_like, on_userprofile, discard in *.

(** ** Reading an ObjectId *)

Lemma ObjectId_of_str_Some s oid :
  ObjectId_of_str s = Some oid → ObjectId_parse s = Some (Twelve oid).
Proof.
  unfold ObjectId_of_str.
  destruct (ObjectId_parse s) as [[?|?]|]; by intros [= ->].
Qed.

Lemma ObjectId_parse_Twelve s oid :
  ObjectId_parse s = Some (Twelve oid) → ObjectId_of_str s = Some oid.
Proof. unfold ObjectId_of_str. by intros ->. Qed.

Lemma ObjectId_parse_Fewer s binary :
  ObjectId_parse s = Some (Fewer binary) → ObjectId_of_str s = None.
Proof. unfold ObjectId_of_str. by intros ->. Qed.

Lemma ObjectId_parse_None s :
  ObjectId_parse s = None → ObjectId_of_str s = None.
Proof. unfold ObjectId_of_str. by intros ->. Qed.

(** A query by an ObjectId of fewer than twelve bytes finds nothing. *)
Lemma find_one_false {A} (coll : list A) : find_one (λ _, false) coll = None.
Proof. unfold find_one. by induction coll. Qed.

Lemma find_one_Fewer {A} `{Document A} binary (coll : list A) :
  find_one (by_parsed (Fewer binary)) coll = None.
Proof. apply find_one_false. Qed.

Section CollectionFacts.
Context {A : Type} `{Document A}.
Implicit Types (q : A → bool) (coll : list A) (d : A).

Lemma find_one_Some q coll d :
  find_one q coll = Some d → q d = true ∧ d ∈ coll.
Proof.
  intros Hf. apply find_some in Hf as [Hin Hq].
  split; [done|]. by apply list_elem_of_In.
Qed.

Lemma find_one_None q coll :
  find_one q coll = None ↔ count_documents q coll = 0%nat.
Proof.
  unfold find_one, count_documents, find.
  induction coll as [|d coll IH]; cbn; [done|].
  destruct (q d); cbn; [split; discriminate | done].
Qed.

Lemma find_one_update_one q upd coll d :
  find_one q coll = Some d → q (upd d) = true →
  find_one q (update_one q upd coll) = Some (upd d).
Proof.
  intros Hf Hq. induction coll as [|d' coll IH]; cbn in *; [done|].
  destruct (q d') eqn:Hd'; cbn.
  - injection Hf as ->. by rewrite Hq.
  - rewrite Hd'. auto.
Qed.

Lemma by_id_true oid d : by_id oid d = true ↔ doc_id d = oid.
Proof. unfold by_id. apply bool_decide_eq_true. Qed.

Lemma fresh_ObjectId_above (used : list ObjectId) oid :
  oid ∈ used → (oid < fresh_ObjectId used)%N.
Proof.
  unfold fresh_ObjectId. induction 1 as [x l|x y l _ IH]; cbn; lia.
Qed.

Lemma fresh_ObjectId_fresh coll d :
  d ∈ coll → by_id (fresh_ObjectId (doc_id <$> coll)) d = false.
Proof.
  intros Hd. apply bool_decide_eq_false. intros Heq.
  assert (doc_id d ∈ doc_id <$> coll) as Hin by by apply list_elem_of_fmap_2.
  apply fresh_ObjectId_above in Hin. lia.
Qed.

Lemma delete_one_first q q' coll d :
  find_one q coll = Some d →
  q' d = true → (∀ d', d' ∈ coll → q' d' = true → d' = d) →
  delete_one q' coll = delete_one q coll.
Proof.
  induction coll as [|d' coll IH]; cbn; [done|]. intros Hf Hq' Huniq.
  destruct (q d') eqn:Hd'.
  - injection Hf as ->. by rewrite Hq'.
  - destruct (q' d') eqn:Hq'd'.
    + assert (d' = d) as -> by (apply Huniq; [left|done]).
      apply find_one_Some in Hf as [Hqd _]. congruence.
    + f_equal. apply IH; [done..|]. intros d'' Hin. apply Huniq. by right.
Qed.

Lemma NoDup_by_id coll d d' :
  NoDup (doc_id <$> coll) → d ∈ coll → d' ∈ coll →
  by_id (doc_id d) d' = true → d' = d.
Proof.
  intros Hnd Hd Hd' Hid. apply by_id_true in Hid.
  induction coll as [|x coll IH]; [by apply elem_of_nil in Hd|].
  cbn in Hnd. apply NoDup_cons in Hnd as [Hx Hnd].
  apply elem_of_cons in Hd as [->|Hd]; apply elem_of_cons in Hd' as [->|Hd'].
  - done.
  - exfalso. apply Hx. rewrite <- Hid. by apply list_elem_of_fmap_2.
  - exfalso. apply Hx. rewrite Hid. by apply list_elem_of_fmap_2.
  - by apply IH.
Qed.

Lemma count_documents_delete_one q coll :
  count_documents q (delete_one q coll) = pred (count_documents q coll).
Proof.
  unfold count_documents, find.
  induction coll as [|d coll IH]; cbn; [done|].
  destruct (q d) eqn:Hd; cbn; [done|]. by rewrite Hd.
Qed.

Lemma find_delete_one_other q q' coll :
  (∀ d, q d = true → q' d = false) →
  find q' (delete_one q coll) = find q' coll.
Proof.
  intros Hqq'. unfold find. induction coll as [|d coll IH]; cbn; [done|].
  destruct (q d) eqn:Hd; cbn.
  - by rewrite (Hqq' d Hd).
  - by rewrite IH.
Qed.

Lemma delete_one_app_fresh q coll d :
  (∀ d', d' ∈ coll → q d' = false) → q d = true →
  delete_one q (coll ++ [d]) = coll.
Proof.
  intros Hc Hd. induction coll as [|d' coll IH]; cbn.
  - by rewrite Hd.
  - rewrite (Hc d') by left. f_equal. apply IH. intros d'' Hin. apply Hc. by right.
Qed.

Lemma find_one_app_None q coll d :
  find_one q coll = None → find_one q (coll ++ [d]) = if q d then Some d else None.
Proof.
  unfold find_one. induction coll as [|d' coll IH]; cbn; [done|].
  destruct (q d'); [done|auto].
Qed.

Lemma find_app q coll d :
  find q (coll ++ [d]) = find q coll ++ (if q d then [d] else []).
Proof. unfold find. by rewrite List.filter_app. Qed.

End CollectionFacts.

Lemma toggle_like_found media_id user_id obj_id media s rnd :
  ObjectId_of_str media_id = Some obj_id →
  find_one (by_id obj_id) (Db.media s) = Some media →
  toggle_like media_id (ToggleLike.mk user_id) (World (Connected s) rnd) =
  let '(like', delta) :=
    match find_one (like_q media_id user_id) (Db.like s) with
    | Some l => (delete_one (by_id (Like._id l)) (Db.like s), -1)
    | None => (Db.like s ++ [Like.mk (fresh_ObjectId (doc_id <$> Db.like s))
                               media_id user_id], 1)
    end in
  let updated := Media.set_likes_count (Z.max 0 (likes media + delta)) media in
  (Ok (serialize_media updated),
   World (Connected
     (Db.mk (Db.event s)
        (update_one (by_id obj_id) (Media.set_likes_count (Z.max 0 (likes media + delta)))
           (Db.media s))
        (Db.comment s) like' (Db.userprofile s))) rnd).
Proof.
  intros Hid%ObjectId_of_str_Some Hm. unfold toggle_like. api_unfold. cbn.
  rewrite Hid. cbn. rewrite Hm.
  pose proof (find_one_Some _ _ _ Hm) as [Hmid%by_id_true _].
  change (doc_id media) with (Media._id media) in Hmid. rewrite Hmid. cbn.
  destruct (find_one (like_q media_id user_id) (Db.like s)) as [l|]; cbn;
    (erewrite find_one_update_one; [done|done|by apply by_id_true]).
Qed.

Lemma find_one_is_Some_count {A} (q : A → bool) (coll : list A) d :
  find_one q coll = Some d → (1 ≤ count_documents q coll)%nat.
Proof.
  intros Hf. destruct (count_documents q coll) eqn:Hc; [|lia].
  apply find_one_None in Hc. congruence.
Qed.

Lemma count_documents_app {A} (q : A → bool) (coll : list A) d :
  count_documents q (coll ++ [d])
  = (count_documents q coll + if q d then 1 else 0)%nat.
Proof.
  unfold count_documents. rewrite find_app, length_app. by destruct (q d).
Qed.

Lemma like_q_new media_id user_id _id :
  like_q media_id user_id (Like.mk _id media_id user_id) = true.
Proof. unfold like_q. cbn. by rewrite !bool_decide_eq_true_2. Qed.

(** ** Failures of toggle-like *)

Lemma toggle_like_malformed media_id payload w :
  ObjectId_parse media_id = None →
  toggle_like media_id payload w
  = (Err (HTTPException 400 "Invalid media id"), w).
Proof. intros Hid. unfold toggle_like. api_unfold. by rewrite Hid. Qed.

Lemma toggle_like_no_ObjectId media_id payload s rnd :
  ObjectId_of_str media_id = None →
  ∃ f, toggle_like media_id payload (World (Connected s) rnd)
       = (Err f, World (Connected s) rnd).
Proof.
  intros Hid. unfold ObjectId_of_str in Hid. unfold toggle_like. api_unfold.
  destruct (ObjectId_parse media_id) as [[obj_id|binary]|]; [done| |by eexists].
  cbn -[find_one]. rewrite find_one_false. by eexists.
Qed.

Lemma toggle_like_absent media_id payload obj_id s rnd :
  ObjectId_parse media_id = Some obj_id →
  find_one (by_parsed obj_id) (Db.media s) = None →
  toggle_like media_id payload (World (Connected s) rnd)
  = (Err (HTTPException 404 "Media not found"), World (Connected s) rnd).
Proof.
  intros Hid Hm. unfold toggle_like. api_unfold. rewrite Hid. cbn.
  by rewrite Hm.
Qed.

(** C4 (amended).  A [media_id] that [ObjectId] does not accept is
    rejected with status 400 (InvalidArgument), whatever the state of the
    store; an accepted [media_id] that is the [_id] of no Media document
    fails with status 404 (NotFound), and that is always so when it holds
    fewer than twelve bytes.  In both cases the world is returned as it
    was: no Like row is inserted or deleted and no [likes_count] is
    written. *)
Theorem toggle_like_failures (media_id : string) (payload : ToggleLike.t)
    (w : world) :
  (ObjectId_parse media_id = None →
   toggle_like media_id payload w
   = (Err (HTTPException 400 "Invalid media id"), w))
  ∧ (∀ obj_id s,
       ObjectId_parse media_id = Some obj_id →
       db w = Connected s →
       find_one (by_parsed obj_id) (Db.media s) = None →
       toggle_like media_id payload w
       = (Err (HTTPException 404 "Media not found"), w))
  ∧ (∀ binary s,
       ObjectId_parse media_id = Some (Fewer binary) →
       db w = Connected s →
       toggle_like media_id payload w
       = (Err (HTTPException 404 "Media not found"), w))
  ∧ error_class_of (HTTPException 400 "Invalid media id") = Some InvalidArgument
  ∧ error_class_of (HTTPException 404 "Media not found") = Some NotFound.
Proof.
  split_and!; [| | |done..].
  - apply toggle_like_malformed.
  - intros obj_id s Hid Hdb Hm. destruct w as [h rnd]. cbn in Hdb. subst h.
    by apply (toggle_like_absent _ _ obj_id).
  - intros binary s Hid Hdb. destruct w as [h rnd]. cbn in Hdb. subst h.
    apply (toggle_like_absent _ _ (Fewer binary)); [done|].
    apply find_one_Fewer.
Qed.

(** C4, witness: the three failures on a store with one media: an id that
    is no hex, the id of no media, and an id of 24 characters with blanks
    in it, which [ObjectId] accepts. *)
Lemma toggle_like_failures_witness :
  toggle_like "not-an-object-id" (ToggleLike.mk "u1")
    (World (Connected fresh_media_db) (λ _, O))
  = (Err (HTTPException 400 "Invalid media id"),
     World (Connected fresh_media_db) (λ _, O))
  ∧ toggle_like "0000000000000000000000ff" (ToggleLike.mk "u1")
      (World (Connected fresh_media_db) (λ _, O))
    = (Err (HTTPException 404 "Media not found"),
       World (Connected fresh_media_db) (λ _, O))
  ∧ toggle_like "00 00 00 00 00 00 00 00 " (ToggleLike.mk "u1")
      (World (Connected fresh_media_db) (λ _, O))
    = (Err (HTTPException 404 "Media not found"),
       World (Connected fresh_media_db) (λ _, O)).
Proof.
  split_and!.
  - apply (toggle_like_failures "not-an-object-id" (ToggleLike.mk "u1")
             (World (Connected fresh_media_db) (λ _, O))).
    reflexivity.
  - destruct (toggle_like_failures "0000000000000000000000ff"
                (ToggleLike.mk "u1")
                (World (Connected fresh_media_db) (λ _, O))) as (_ & Habsent & _).
    apply (Habsent (Twelve 255%N) fresh_media_db); reflexivity.
  - destruct (toggle_like_failures "00 00 00 00 00 00 00 00 "
                (ToggleLike.mk "u1")
                (World (Connected fresh_media_db) (λ _, O)))
      as (_ & _ & Hfewer & _).
    apply (Hfewer [0; 0; 0; 0; 0; 0; 0; 0]%N fresh_media_db); reflexivity.
Defined.

(** C4, counterexample: a malformed [media_id] is answered with status
    400, which is InvalidArgument and not NotFound. *)
Lemma toggle_like_malformed_is_InvalidArgument :
  ∃ f w',
    toggle_like "not-an-object-id" (ToggleLike.mk "u1")
      (World (Connected fresh_media_db) (λ _, O)) = (Err f, w')
    ∧ status f = 400
    ∧ error_class_of f = Some InvalidArgument
    ∧ error_class_of f ≠ Some NotFound.
Proof.
  eexists _, _. split; [reflexivity|]. split; [reflexivity|].
  split; [reflexivity|discriminate].
Qed.

(** ** Upload

    C5 (amended).  upload-media tests [db is None] first: with no store
    configured every upload fails with status 500, whatever the
    [event_id].  With a configured store an [event_id] that [ObjectId]
    does not accept is rejected with status 400 (InvalidArgument) and the
    world unchanged; this holds for a store that is down as well, where
    any query would have raised, so the event is not looked up.  An
    accepted [event_id] that is the [_id] of no Event fails with status
    404 (NotFound); the two classes differ.  When the Event exists the
    upload succeeds, and every successful upload returns and stores a
    Media with [likes_count] 0 and [comments_count] 0. *)
Theorem upload_media_outcomes (payload : UploadMedia.t) (w : world) :
  (db w = NotConfigured →
   upload_media payload w
   = (Err (HTTPException 500 "Database not configured"), w))
  ∧ (db w ≠ NotConfigured →
     ObjectId_parse (UploadMedia.event_id payload) = None →
     upload_media payload w = (Err (HTTPException 400 "Invalid event id"), w))
  ∧ (∀ obj_id s,
       ObjectId_parse (UploadMedia.event_id payload) = Some obj_id →
       db w = Connected s →
       find_one (by_parsed obj_id) (Db.event s) = None →
       upload_media payload w = (Err (HTTPException 404 "Event not found"), w))
  ∧ error_class_of (HTTPException 400 "Invalid event id") = Some InvalidArgument
  ∧ error_class_of (HTTPException 404 "Event not found") = Some NotFound
  ∧ InvalidArgument ≠ NotFound
  ∧ (∀ obj_id s event,
       ObjectId_parse (UploadMedia.event_id payload) = Some obj_id →
       db w = Connected s →
       find_one (by_parsed obj_id) (Db.event s) = Some event →
       ∃ m w', upload_media payload w = (Ok m, w'))
  ∧ (∀ m w',
       upload_media payload w = (Ok m, w') →
       Media.likes_count m = Some 0 ∧ Media.comments_count m = Some 0
       ∧ ∃ s stored,
           db w = Connected s
           ∧ db w' = Connected
               (Db.mk (Db.event s) (Db.media s ++ [stored]) (Db.comment s)
                  (Db.like s) (Db.userprofile s))
           ∧ serialize_media stored = m
           ∧ Media.likes_count stored = Some 0
           ∧ Media.comments_count stored = Some 0).
Proof.
  destruct w as [h rnd]. unfold upload_media. api_unfold. cbn.
  split_and!; [| | |done..| |].
  - by intros ->.
  - intros Hdb ->. by destruct h.
  - intros obj_id s -> -> Hev. cbn. by rewrite Hev.
  - intros obj_id s event -> -> Hev. cbn. rewrite Hev. cbn. eauto.
  - intros m w' Hok.
    destruct h as [| |s]; [done|..];
      destruct (ObjectId_parse _) as [obj_id|]; cbn in *; try discriminate.
    destruct (find_one _ _); cbn in *; [|discriminate]. injection Hok as <- <-.
    split_and!; [done..|]. eexists s, _. by split_and!.
Qed.

(** C5, witness: the outcomes on concrete requests; the last [event_id]
    has 24 characters with blanks in it, which [ObjectId] accepts. *)
Lemma upload_media_outcomes_witness :
  upload_media (UploadMedia.mk "not-an-object-id" "u1" "http://img/1" "photo" None)
    (World Unreachable (λ _, O))
  = (Err (HTTPException 400 "Invalid event id"), World Unreachable (λ _, O))
  ∧ upload_media
      (UploadMedia.mk "0000000000000000000000ff" "u1" "http://img/1" "photo" None)
      (World (Connected one_event_db) (λ _, O))
    = (Err (HTTPException 404 "Event not found"),
       World (Connected one_event_db) (λ _, O))
  ∧ (∃ m w',
      upload_media
        (UploadMedia.mk "000000000000000000000001" "u1" "http://img/1" "photo" None)
        (World (Connected one_event_db) (λ _, O)) = (Ok m, w')
      ∧ Media.likes_count m = Some 0 ∧ Media.comments_count m = Some 0)
  ∧ upload_media
      (UploadMedia.mk "00 00 00 00 00 00 00 00 " "u1" "http://img/1" "photo" None)
      (World (Connected one_event_db) (λ _, O))
    = (Err (HTTPException 404 "Event not found"),
       World (Connected one_event_db) (λ _, O)).
Proof.
  split_and!.
  - apply (upload_media_outcomes
             (UploadMedia.mk "not-an-object-id" "u1" "http://img/1" "photo" None)
             (World Unreachable (λ _, O))); [discriminate|reflexivity].
  - destruct (upload_media_outcomes
                (UploadMedia.mk "0000000000000000000000ff" "u1" "http://img/1"
                   "photo" None)
                (World (Connected one_event_db) (λ _, O)))
      as (_ & _ & Habsent & _).
    apply (Habsent (Twelve 255%N) one_event_db); reflexivity.
  - destruct (upload_media_outcomes
                (UploadMedia.mk "000000000000000000000001" "u1" "http://img/1"
                   "photo" None)
                (World (Connected one_event_db) (λ _, O)))
      as (_ & _ & _ & _ & _ & _ & Hok & Hcounts).
    destruct (Hok (Twelve 1%N) one_event_db an_event_doc) as (m & w' & Hm);
      [reflexivity..|].
    exists m, w'. split; [exact Hm|].
    destruct (Hcounts m w' Hm) as (Hl & Hc & _). by split.
  - destruct (upload_media_outcomes
                (UploadMedia.mk "00 00 00 00 00 00 00 00 " "u1" "http://img/1"
                   "photo" None)
                (World (Connected one_event_db) (λ _, O)))
      as (_ & _ & Habsent & _).
    apply (Habsent (Fewer [0; 0; 0; 0; 0; 0; 0; 0]%N) one_event_db);
      reflexivity.
Defined.

(** C5, counterexample: with no store configured a malformed [event_id]
    is not rejected as InvalidArgument: the test of [db] comes first and
    the answer is status 500. *)
Lemma upload_media_malformed_without_store :
  ∃ f w',
    upload_media
      (UploadMedia.mk "not-an-object-id" "u1" "http://img/1" "photo" None)
      (World NotConfigured (λ _, O)) = (Err f, w')
    ∧ ObjectId_parse "not-an-object-id" = None
    ∧ status f = 500
    ∧ error_class_of f = Some ServiceUnavailable
    ∧ error_class_of f ≠ Some InvalidArgument.
Proof.
  eexists _, _. split; [reflexivity|]. split; [reflexivity|].
  split; [reflexivity|]. split; [reflexivity|discriminate].
Qed.

(** ** Creating an event *)

Lemma choices_draws population k w :
  (0 < length population)%nat →
  choices population k w
  = (Ok ((λ i, nth (random w i mod length population)%nat population "0"%char)
           <$> seq 0 k),
     World (db w) (λ i, random w (k + i)%nat)).
Proof.
  intros Hpop. revert w. induction k as [|k IH]; intros [h rnd]; [done|].
  cbn [choices]. unfold mbind, api_bind, choice. cbn [random db].
  destruct (population !! (rnd 0%nat mod length population)%nat) as [c|] eqn:Hc.
  - rewrite IH. cbn [random db seq fmap list_fmap]. cbn beta.
    rewrite (nth_lookup_Some _ _ "0"%char _ Hc).
    by rewrite <- fmap_S_seq, <- list_fmap_compose.
  - apply lookup_ge_None in Hc.
    pose proof (Nat.mod_upper_bound (rnd 0%nat) (length population)). lia.
Qed.

Lemma length_string_of_list_ascii (cs : list ascii) :
  String.length (string_of_list_ascii cs) = length cs.
Proof. induction cs as [|c cs IH]; cbn; congruence. Qed.

Lemma generate_code_draws w :
  generate_code 6 w
  = (Ok (code_of_draws (random w)), World (db w) (λ i, random w (6 + i)%nat)).
Proof.
  unfold generate_code, mbind, api_bind.
  rewrite choices_draws by (vm_compute; lia). reflexivity.
Qed.

Lemma code_of_draws_shape rnd :
  String.length (code_of_draws rnd) = 6%nat
  ∧ Forall (λ c, upper_alnum c = true) (list_ascii_of_string (code_of_draws rnd)).
Proof.
  unfold code_of_draws. split.
  - by rewrite length_string_of_list_ascii, length_fmap, length_seq.
  - rewrite list_ascii_of_string_of_list_ascii.
    apply Forall_fmap, Forall_forall. intros i _. cbn beta.
    set (alphabet := list_ascii_of_string (ascii_uppercase +:+ digits)%string).
    assert (Forall (λ c, upper_alnum c = true) alphabet) as Hall.
    { apply Forall_forall. intros c Hc%list_elem_of_In. revert c Hc.
      by apply forallb_forall. }
    rewrite Forall_forall in Hall. apply Hall.
    apply list_elem_of_In, nth_In, Nat.mod_upper_bound. by vm_compute.
Qed.

Lemma create_event_connected payload s rnd :
  let event_doc :=
    Event.mk (fresh_ObjectId (doc_id <$> Db.event s)) None (code_of_draws rnd)
      (CreateEvent.title payload) (CreateEvent.date_iso payload)
      (CreateEvent.location payload) (CreateEvent.access payload)
      (CreateEvent.cover_url payload) (Some [])
      (CreateEvent.challenges payload) false in
  create_event payload (World (Connected s) rnd)
  = (Ok (serialize_event event_doc),
     World (Connected (Db.mk (Db.event s ++ [event_doc]) (Db.media s)
                         (Db.comment s) (Db.like s) (Db.userprofile s)))
       (λ i, rnd (6 + i)%nat)).
Proof.
  unfold create_event, mbind, api_bind, db_is_None. cbn [db].
  by rewrite generate_code_draws.
Qed.

(** C6.  On a connected store create-event always succeeds.  The event it
    returns and stores has a code of exactly 6 characters, each in A-Z or
    0-9, an empty participants list and [ended = false].  Nothing checks
    the code against the stored events: a second creation that gets the
    same draws succeeds with the same code, and the store then holds both
    events. *)
Theorem create_event_code (payload payload2 : CreateEvent.t) (s : database)
    (rnd : nat → nat) :
  ∃ e stored s1 e2 s2 rnd',
    create_event payload (World (Connected s) rnd)
      = (Ok e, World (Connected s1) rnd')
    ∧ String.length (Event.code e) = 6%nat
    ∧ Forall (λ c, upper_alnum c = true) (list_ascii_of_string (Event.code e))
    ∧ Event.participants e = Some []
    ∧ Event.ended e = false
    ∧ Db.event s1 = Db.event s ++ [stored]
    ∧ serialize_event stored = e
    ∧ create_event payload2 (World (Connected s1) rnd)
        = (Ok e2, World (Connected s2) rnd')
    ∧ Event.code e2 = Event.code e
    ∧ (2 ≤ count_documents (λ d, bool_decide (Event.code d = Event.code e))
             (Db.event s2))%nat.
Proof.
  pose proof (code_of_draws_shape rnd) as [Hlen Hchars].
  eexists _, _, _, _, _, _.
  split; [apply create_event_connected|].
  split; [exact Hlen|]. split; [exact Hchars|].
  split; [reflexivity|]. split; [reflexivity|].
  split; [reflexivity|]. split; [reflexivity|].
  split; [apply create_event_connected|].
  split; [reflexivity|].
  cbn [Db.event serialize_event Event.code].
  rewrite !count_documents_app. cbn [Event.code].
  rewrite !bool_decide_eq_true_2 by done. lia.
Qed.

(** The run of the spec's example: the first six draws [3, 10, 17, ...]
    spell ["DKRY5C"]. *)
Example create_event_beach_day :
  (create_event (CreateEvent.mk "Beach Day" None None "public" None [])
     (World (Connected (Db.mk [] [] [] [] [])) (λ i, i * 7 + 3)%nat)).1
  = Ok (serialize_event an_event_doc).
Proof. reflexivity. Qed.

(** ** Reading a user *)

Lemma find_one_not_elem {A} (q : A → bool) (coll : list A) :
  (∀ d, d ∈ coll → q d = false) → find_one q coll = None.
Proof.
  intros Hq. unfold find_one. induction coll as [|d coll IH]; cbn; [done|].
  rewrite (Hq d) by left. apply IH. intros d' Hd'. apply Hq. by right.
Qed.

(** C7.  When no stored profile has the given [user_id], get-user succeeds
    with the made-up profile (username ["Guest"], no avatar, no
    [following_events]), the events whose participants contain the user
    and the number of media the user uploaded; and it returns the world
    as it was, so no collection is written and the same call made again
    gives the same answer. *)
Theorem get_user_default (user_id : string) (s : database) (rnd : nat → nat) :
  (∀ p, p ∈ Db.userprofile s → Userprofile.user_id p ≠ user_id) →
  ∃ out,
    get_user user_id (World (Connected s) rnd)
      = (Ok out, World (Connected s) rnd)
    ∧ UserOut.profile out
      = Userprofile.mk None user_id (Some "Guest") None None (Some [])
    ∧ UserOut.joined_events out
      = serialize_event <$>
          find (λ e, bool_decide (user_id ∈ default [] (Event.participants e)))
            (Db.event s)
    ∧ UserOut.uploads_count out
      = count_documents (λ m, bool_decide (Media.user_id m = user_id))
          (Db.media s)
    ∧ get_user user_id (get_user user_id (World (Connected s) rnd)).2
      = (Ok out, World (Connected s) rnd).
Proof.
  intros Hnone.
  assert (get_user user_id (World (Connected s) rnd)
          = (Ok (UserOut.mk
                   (Userprofile.mk None user_id (Some "Guest") None None (Some []))
                   (serialize_event <$>
                      find (λ e, bool_decide
                                   (user_id ∈ default [] (Event.participants e)))
                        (Db.event s))
                   (count_documents
                      (λ m, bool_decide (Media.user_id m = user_id))
                      (Db.media s))),
             World (Connected s) rnd)) as Hrun.
  { unfold get_user. api_unfold. cbn.
    rewrite find_one_not_elem; [done|].
    intros p Hp. apply bool_decide_eq_false. by apply Hnone. }
  eexists. split; [exact Hrun|]. rewrite Hrun. by split_and!.
Qed.

(** C7, witness: the spec's example, an unknown user on a store that has
    one event and no profile. *)
Lemma get_user_default_witness :
  ∃ out,
    get_user "unknown_id" (World (Connected one_event_db) (λ _, O))
      = (Ok out, World (Connected one_event_db) (λ _, O))
    ∧ UserOut.profile out
      = Userprofile.mk None "unknown_id" (Some "Guest") None None (Some [])
    ∧ UserOut.joined_events out = []
    ∧ UserOut.uploads_count out = O.
Proof.
  destruct (get_user_default "unknown_id" one_event_db (λ _, O))
    as (out & Hrun & Hprof & Hjoined & Huploads & _).
  - intros p Hp. by apply elem_of_nil in Hp.
  - exists out. split_and!; [exact Hrun|exact Hprof|exact Hjoined|exact Huploads].
Defined.

(** ** Listing media with an unknown sort

    C10.  With a well-formed [event_id], a connected store and a [sort]
    other than ["time"], ["participant"] and ["challenge"], the listing
    succeeds: it returns every Media whose [event_id] is the given string,
    in the order of the collection, and writes nothing. *)
Theorem list_media_unknown_sort (event_id sort_ : string) (s : database)
    (rnd : nat → nat) :
  is_Some (ObjectId_of_str event_id) →
  sort_ ≠ "time" → sort_ ≠ "participant" → sort_ ≠ "challenge" →
  list_media_for_event event_id sort_ (World (Connected s) rnd)
  = (Ok (serialize_media <$>
           find (λ m, bool_decide (Media.event_id m = event_id)) (Db.media s)),
     World (Connected s) rnd).
Proof.
  intros [obj_id Hid%ObjectId_of_str_Some] Htime Hparticipant Hchallenge.
  unfold list_media_for_event. api_unfold. rewrite Hid. cbn.
  apply String.eqb_neq in Htime, Hparticipant, Hchallenge.
  by rewrite Htime, Hparticipant, Hchallenge.
Qed.

(** C10, witness: [sort=likes] lists the two media in store order, while
    [sort=participant] would put the second one first. *)
Lemma list_media_unknown_sort_witness :
  list_media_for_event "000000000000000000000001" "likes"
    (World (Connected two_media_db) (λ _, O))
  = (Ok (serialize_media <$> Db.media two_media_db),
     World (Connected two_media_db) (λ _, O))
  ∧ (list_media_for_event "000000000000000000000001" "participant"
       (World (Connected two_media_db) (λ _, O))).1
    = Ok (serialize_media <$> reverse (Db.media two_media_db)).
Proof.
  split; [|reflexivity].
  apply (list_media_unknown_sort "000000000000000000000001" "likes"
           two_media_db (λ _, O)); [by eexists|discriminate..].
Defined.

(** ** Joining an event *)

Section UpdateFacts.
Context {A : Type}.
Implicit Types (q : A → bool) (upd : A → A) (coll : list A).

Lemma find_one_elem q coll d :
  d ∈ coll → q d = true → is_Some (find_one q coll).
Proof.
  intros Hd Hq. destruct (find_one q coll) eqn:Hf; [by eexists|].
  apply find_none with (x := d) in Hf; [congruence|]. by apply list_elem_of_In.
Qed.

Lemma update_one_id q coll : update_one q id coll = coll.
Proof.
  induction coll as [|d coll IH]; cbn; [done|]. destruct (q d); by f_equal.
Qed.

Lemma update_one_idemp q upd coll :
  (∀ d, q (upd d) = q d) → (∀ d, upd (upd d) = upd d) →
  update_one q upd (update_one q upd coll) = update_one q upd coll.
Proof.
  intros Hq Hupd. induction coll as [|d coll IH]; cbn; [done|].
  destruct (q d) eqn:Hd; cbn.
  - by rewrite Hq, Hd, Hupd.
  - by rewrite Hd, IH.
Qed.

(** A query that the update does not affect finds the same document,
    updated or not. *)
Lemma find_one_update_one_other q' q upd coll :
  (∀ d, q' (upd d) = q' d) →
  option_Forall2 (λ d d', d' = d ∨ d' = upd d)
    (find_one q' coll) (find_one q' (update_one q upd coll)).
Proof.
  intros Hq'. induction coll as [|d coll IH]; cbn; [constructor|].
  destruct (q d) eqn:Hd; cbn.
  - rewrite Hq'. destruct (q' d); [constructor; by right|].
    destruct (List.find q' coll); constructor. by left.
  - destruct (q' d); [constructor; by left|done].
Qed.

End UpdateFacts.

Lemma find_by_code_connected code s rnd :
  find_by_code code (World (Connected s) rnd)
  = (Ok (event_with_code code (Db.event s)), World (Connected s) rnd).
Proof.
  unfold find_by_code, event_with_code. api_unfold. cbn.
  by destruct (find_one (λ e, bool_decide (Event.code e = upper code))
                 (Db.event s)).
Qed.

Lemma event_with_code_update_one code q upd coll :
  (∀ e, Event.code (upd e) = Event.code e) →
  option_Forall2 (λ e e', e' = e ∨ e' = upd e)
    (event_with_code code coll) (event_with_code code (update_one q upd coll)).
Proof.
  intros Hcode. unfold event_with_code.
  pose proof (find_one_update_one_other
                (λ e, bool_decide (Event.code e = upper code)) q upd coll) as H1.
  pose proof (find_one_update_one_other
                (λ e, bool_decide (Event.code e = code)) q upd coll) as H2.
  destruct H1 as [e e' He|]; [by intros e; rewrite Hcode|by constructor|].
  apply H2. by intros e; rewrite Hcode.
Qed.

Lemma join_event_found payload s rnd event :
  event_with_code (JoinEvent.code payload) (Db.event s) = Some event →
  join_event payload (World (Connected s) rnd)
  = (match find_one (by_id (Event._id event))
             (joined_events event (JoinEvent.user_id payload) (Db.event s)) with
     | Some e => Ok (serialize_event e)
     | None => Err (Uncaught AttributeError)
     end,
     World (Connected
       (Db.mk (joined_events event (JoinEvent.user_id payload) (Db.event s))
          (Db.media s) (Db.comment s) (Db.like s)
          (joined_profiles payload (Db.userprofile s)))) rnd).
Proof.
  intros Hev. unfold join_event, mbind, api_bind, db_is_None. cbn [db].
  rewrite find_by_code_connected, Hev. api_unfold. cbn.
  unfold joined_events, joined_profiles, joined_participants, participant_set,
    find_one.
  by destruct (List.find _ _).
Qed.

Lemma join_event_not_found payload s rnd :
  event_with_code (JoinEvent.code payload) (Db.event s) = None →
  join_event payload (World (Connected s) rnd)
  = (Err (HTTPException 404 "Event not found"), World (Connected s) rnd).
Proof.
  intros Hev. unfold join_event, mbind, api_bind, db_is_None. cbn [db].
  by rewrite find_by_code_connected, Hev.
Qed.

Lemma event_with_code_Some code coll event :
  event_with_code code coll = Some event → event ∈ coll.
Proof.
  unfold event_with_code. intros Hev.
  destruct (find_one (λ e, bool_decide (Event.code e = upper code)) coll)
    as [e|] eqn:Hupper.
  - injection Hev as ->. by apply find_one_Some in Hupper as [_ ?].
  - by apply find_one_Some in Hev as [_ ?].
Qed.

Lemma joined_participants_set event user_id :
  list_to_set (joined_participants event user_id)
  = participant_set event ∪ ({[ user_id ]} : gset string).
Proof. unfold joined_participants. apply list_to_set_elements_L. Qed.

Lemma participant_set_set_participants {I D} ps (event : Event.doc I D) :
  participant_set (Event.set_participants ps event) = list_to_set ps.
Proof. reflexivity. Qed.

Lemma joined_participants_again event user_id :
  joined_participants
    (Event.set_participants (joined_participants event user_id) event) user_id
  = joined_participants event user_id.
Proof.
  unfold joined_participants at 1.
  rewrite participant_set_set_participants, joined_participants_set.
  unfold joined_participants. f_equal.
  by rewrite <- (assoc_L (∪)), (idemp_L (∪)).
Qed.

Lemma joined_profiles_found payload coll :
  is_Some (find_one
    (λ p, bool_decide (Userprofile.user_id p = JoinEvent.user_id payload))
    (joined_profiles payload coll)).
Proof.
  unfold joined_profiles, update_one_upsert.
  match goal with
  | |- context [find_one ?q coll] => destruct (find_one q coll) as [p|] eqn:Hp
  end.
  - rewrite update_one_id, Hp. by eexists.
  - cbn. rewrite find_one_app_None by done. cbn.
    rewrite bool_decide_eq_true_2 by done. by eexists.
Qed.

Lemma joined_profiles_again payload coll :
  joined_profiles payload (joined_profiles payload coll)
  = joined_profiles payload coll.
Proof.
  destruct (joined_profiles_found payload coll) as [p Hp].
  unfold joined_profiles at 1. unfold update_one_upsert.
  rewrite Hp. apply update_one_id.
Qed.

Lemma participant_set_serialize (event : Event.t) :
  participant_set (serialize_event event) = participant_set event.
Proof. reflexivity. Qed.

Lemma joined_events_again event event' user_id coll :
  event' = event
  ∨ event' = Event.set_participants (joined_participants event user_id) event →
  joined_events event' user_id (joined_events event user_id coll)
  = joined_events event user_id coll.
Proof.
  intros Hev'.
  assert (Event._id event' = Event._id event
          ∧ joined_participants event' user_id
            = joined_participants event user_id) as [Hid Hps].
  { destruct Hev' as [->| ->]; [done|].
    split; [done|]. apply joined_participants_again. }
  unfold joined_events at 1. rewrite Hid, Hps.
  by apply update_one_idemp.
Qed.

(** C2.  Let a join succeed on a connected store and return [e1].  Then the
    participants of [e1] are, as a set, those of the event found by the
    code together with the user, and the list has no duplicate.  The same
    join made again succeeds on the same event and changes nothing:
    every event keeps its participant set and all its other fields, the
    returned participant set is the one of [e1], again without
    duplicate, and the other collections, the profiles included, are as
    the first join left them. *)
Theorem join_event_idempotent (payload : JoinEvent.t) (s : database)
    (rnd : nat → nat) (e1 : Event.json) (w1 : world) :
  join_event payload (World (Connected s) rnd) = (Ok e1, w1) →
  ∃ event s1 e2 s2,
    event_with_code (JoinEvent.code payload) (Db.event s) = Some event
    ∧ w1 = World (Connected s1) rnd
    ∧ participant_set e1
      = participant_set event ∪ {[ JoinEvent.user_id payload ]}
    ∧ NoDup (default [] (Event.participants e1))
    ∧ join_event payload w1 = (Ok e2, World (Connected s2) rnd)
    ∧ Event._id e2 = Event._id e1
    ∧ participant_set e2 = participant_set e1
    ∧ NoDup (default [] (Event.participants e2))
    ∧ participant_set <$> Db.event s2 = participant_set <$> Db.event s1
    ∧ Event.set_participants [] <$> Db.event s2
      = Event.set_participants [] <$> Db.event s1
    ∧ Db.media s2 = Db.media s1
    ∧ Db.comment s2 = Db.comment s1
    ∧ Db.like s2 = Db.like s1
    ∧ Db.userprofile s2 = Db.userprofile s1.
Proof.
  intros Hjoin. set (user_id := JoinEvent.user_id payload) in *.
  destruct (event_with_code (JoinEvent.code payload) (Db.event s))
    as [event|] eqn:Hev; [|by rewrite join_event_not_found in Hjoin].
  rewrite (join_event_found _ _ _ _ Hev) in Hjoin. fold user_id in Hjoin.
  set (upd := Event.set_participants (joined_participants event user_id)
              : Event.t → Event.t) in *.
  (* the document the first join wrote and returned *)
  destruct (find_one_elem (by_id (Event._id event)) (Db.event s) event)
    as [d0 Hd0]; [by eapply event_with_code_Some|by apply by_id_true|].
  assert (find_one (by_id (Event._id event))
            (joined_events event user_id (Db.event s)) = Some (upd d0)) as Hupd.
  { apply find_one_update_one; [done|]. by apply find_one_Some in Hd0 as [? _]. }
  rewrite Hupd in Hjoin. injection Hjoin as <- <-.
  (* the second join finds the same event, as it was or as it was written *)
  pose proof (event_with_code_update_one (JoinEvent.code payload)
                (by_id (Event._id event)) upd (Db.event s) (λ _, eq_refl))
    as Hev2.
  rewrite Hev in Hev2. fold (joined_events event user_id (Db.event s)) in Hev2.
  inversion Hev2 as [? event' Hev' Heq1 Heq2|]. subst.
  symmetry in Heq2.
  change (update_one (by_id (Event._id event)) upd (Db.event s))
    with (joined_events event user_id (Db.event s)) in Heq2.
  exists event. eexists _, _, _. split; [done|]. split; [reflexivity|].
  split; [|split].
  { rewrite participant_set_serialize. unfold upd.
    rewrite participant_set_set_participants. apply joined_participants_set. }
  { cbn. apply NoDup_elements. }
  rewrite (join_event_found payload (Db.mk _ _ _ _ _) rnd event' Heq2).
  fold user_id.
  cbn [Db.event Db.media Db.comment Db.like Db.userprofile].
  rewrite (joined_events_again _ _ _ _ Hev'), joined_profiles_again.
  assert (Event._id event' = Event._id event) as ->
    by (by destruct Hev' as [->| ->]).
  rewrite Hupd. split; [reflexivity|]. split_and!; try done.
  cbn. apply NoDup_elements.
Qed.

(** C2, witness: the spec's example, joining with the lower-cased code,
    twice. *)
Lemma join_event_idempotent_witness :
  ∃ e1 s1 e2 s2,
    join_event (JoinEvent.mk "dkry5c" "u1" None)
      (World (Connected one_event_db) (λ _, O))
    = (Ok e1, World (Connected s1) (λ _, O))
    ∧ Event.participants e1 = Some ["u1"]
    ∧ join_event (JoinEvent.mk "dkry5c" "u1" None)
        (World (Connected s1) (λ _, O))
      = (Ok e2, World (Connected s2) (λ _, O))
    ∧ participant_set e2 = participant_set e1
    ∧ Db.userprofile s2 = Db.userprofile s1.
Proof.
  edestruct (join_event_idempotent (JoinEvent.mk "dkry5c" "u1" None)
               one_event_db (λ _, O))
    as (event & s1 & e2 & s2 & _ & Hw1 & _ & _ & Hagain & _ & Hset & _ & _ & _
        & _ & _ & _ & Hprofiles);
    [vm_compute; reflexivity|].
  injection Hw1 as <-.
  eexists _, _, e2, s2. split; [vm_compute; reflexivity|].
  split; [reflexivity|]. split; [exact Hagain|]. by split.
Defined.

(** ** Exploring events *)

Lemma bind_Ok {A B} (m : api A) (k : A → api B) w a w' :
  m w = (Ok a, w') → (m ≫= k) w = k a w'.
Proof. intros Hm. unfold mbind, api_bind. by rewrite Hm. Qed.

Lemma mapM_reads {A B} (f : A → api B) (g : A → B) (l : list A) (w : world) :
  (∀ x, f x w = (Ok (g x), w)) → mapM f l w = (Ok (g <$> l), w).
Proof.
  intros Hf. induction l as [|x l IH]; [done|].
  change (mapM f (x :: l)) with (y ← f x; k ← mapM f l; mret (y :: k)).
  rewrite (bind_Ok _ _ _ _ _ (Hf x)). by rewrite (bind_Ok _ _ _ _ _ IH).
Qed.

Lemma explore_events_connected limit_ s rnd :
  explore_events limit_ (World (Connected s) rnd)
  = (Ok (explore_item s <$> explored limit_ s), World (Connected s) rnd).
Proof.
  unfold explore_events, mbind at 1 2, api_bind, db_is_None, query. cbn [db].
  apply mapM_reads. intros e. unfold explore_item. api_unfold. cbn.
  destruct (truthy (Event.cover_url e)); cbn; [done|].
  by destruct (find_one _ (Db.media s)).
Qed.

Lemma elem_of_sort_insert {A} (le : A → A → bool) d x sorted :
  x ∈ sort_insert le d sorted ↔ x = d ∨ x ∈ sorted.
Proof.
  induction sorted as [|d' sorted IH]; cbn.
  - rewrite list_elem_of_singleton, elem_of_nil. tauto.
  - destruct (le d d'); rewrite !elem_of_cons; [done|]. rewrite IH. tauto.
Qed.

Lemma elem_of_sort {A} (le : A → A → bool) x cursor :
  x ∈ sort le cursor ↔ x ∈ cursor.
Proof.
  unfold sort. induction cursor as [|d cursor IH]; cbn; [done|].
  by rewrite elem_of_sort_insert, IH, elem_of_cons.
Qed.

Lemma elem_of_limit {A} n x (cursor : list A) :
  x ∈ limit n cursor → x ∈ cursor.
Proof.
  unfold limit. destruct (n =? 0)%Z; [done|].
  intros (i & Hi & _)%elem_of_take. by eapply list_elem_of_lookup_2.
Qed.

(** What the code does guarantee of explore-events: on a connected store
    it succeeds, every event it returns is a stored event with
    [access = "public"], and the [media_count] of an item is the number
    of Media whose [event_id] is the string of the event's [_id]. *)
Lemma explore_events_public_counts limit_ s rnd :
  ∃ items,
    explore_events limit_ (World (Connected s) rnd)
      = (Ok items, World (Connected s) rnd)
    ∧ Forall (λ item,
        ∃ e, e ∈ Db.event s
          ∧ Event.access e = "public"
          ∧ Event.access (ExploreItem.event item) = "public"
          ∧ Event._id (ExploreItem.event item) = str_of_ObjectId (Event._id e)
          ∧ ExploreItem.media_count item
            = count_documents
                (λ m, bool_decide
                        (Media.event_id m = str_of_ObjectId (Event._id e)))
                (Db.media s)) items.
Proof.
  eexists. split; [apply explore_events_connected|].
  apply Forall_fmap, Forall_forall. intros e He.
  apply elem_of_limit, elem_of_sort in He.
  unfold find in He. apply list_elem_of_In, filter_In in He as [He Hpub].
  apply list_elem_of_In in He. apply bool_decide_eq_true in Hpub.
  exists e. split_and!; [done..| | |done].
  - unfold explore_item. cbn.
    destruct (truthy _); [done|]. by destruct (find_one _ _).
  - unfold explore_item. cbn.
    destruct (truthy _); [done|]. by destruct (find_one _ _).
Qed.

(** C3, the order.  Two public events are created through the API on an
    empty store.  Each is stored without a [created_at], the key
    explore-events sorts on, so the sort has nothing to order them by:
    the listing gives the event created first before the one created
    last. *)
Theorem explore_events_oldest_first :
  ∃ s items,
    db after_two_creations = Connected s
    ∧ Event.title <$> Db.event s = ["First"; "Second"]
    ∧ Event.created_at <$> Db.event s = [None; None]
    ∧ (explore_events 24 after_two_creations).1 = Ok items
    ∧ Event.title ∘ ExploreItem.event <$> items = ["First"; "Second"].
Proof. eexists _, _. split_and!; reflexivity. Qed.

(** ** Requests without a store *)

Lemma fmap_fst {A B} (g : A → B) (m : api A) w :
  ((g <$> m) w).1 = match (m w).1 with Ok a => Ok (g a) | Err f => Err f end.
Proof. unfold fmap, api_fmap. by destruct (m w) as [[a|f] w']. Qed.

Lemma fmap_snd {A B} (g : A → B) (m : api A) w : ((g <$> m) w).2 = (m w).2.
Proof. unfold fmap, api_fmap. by destruct (m w) as [[a|f] w']. Qed.

Lemma outcome_of_fmap {A B} (g : A → B) (m : api A) w :
  outcome_of ((g <$> m) w).1 = outcome_of (m w).1.
Proof. rewrite fmap_fst. by destruct (m w).1. Qed.

(** C8 (amended).  Let [db] be [None] or the store be down.  Then
    create-event, explore-events and join-event fail with
    ServiceUnavailable (status 500), whatever the request; so do
    get-event-by-code and get-user, and upload-media when [db] is [None].
    The routes that validate an identifier first (get-event, list-media,
    toggle-like, list-comments, add-comment, and upload-media on a store
    that is down) reject a malformed one with InvalidArgument and fail
    with ServiceUnavailable otherwise; update-user succeeds when the
    request names no field and fails with ServiceUnavailable otherwise.
    No request fails with NotFound, and the handle is left as it was.
    ServiceUnavailable is a class of its own. *)
Theorem requests_without_store (r : request) (w : world) :
  db w = NotConfigured ∨ db w = Unreachable →
  outcome_of (route r w).1 = Some (without_store (db w) r)
  ∧ without_store (db w) r ≠ fails NotFound
  ∧ db (route r w).2 = db w
  ∧ (∀ payload,
       ∃ f, (create_event payload w).1 = Err f
            ∧ status f = 500
            ∧ error_class_of f = Some ServiceUnavailable)
  ∧ (db w = NotConfigured →
     ∀ payload payload',
       (create_event payload w).1
         = Err (HTTPException 500 "Database not configured")
       ∧ (upload_media payload' w).1
         = Err (HTTPException 500 "Database not configured"))
  ∧ ServiceUnavailable ≠ InvalidArgument
  ∧ ServiceUnavailable ≠ NotFound.
Proof.
  intros Hdb. destruct w as [h rnd]. cbn [db] in *.
  split_and!; [| | | | |done..].
  - destruct Hdb as [-> | ->]; destruct r; cbn [route without_store];
      rewrite outcome_of_fmap; unfold malformed.
    all: try (unfold create_event, mbind, api_bind, db_is_None; cbn [db];
              try rewrite generate_code_draws; reflexivity).
    all: try (unfold explore_events, join_event, get_event_by_code, get_user,
                find_by_code; api_unfold; reflexivity).
    all: try (unfold upload_media, get_event, list_media_for_event, toggle_like,
                list_comments, add_comment; api_unfold; cbn;
              destruct (ObjectId_parse _) eqn:Hid; reflexivity).
    all: try (unfold upload_media; api_unfold; reflexivity).
    all: destruct payload as [[?|] [?|] [?|]]; reflexivity.
  - destruct r; cbn [without_store]; try discriminate.
    all: try (destruct (malformed _); discriminate).
    + destruct h; try discriminate; destruct (malformed _); discriminate.
    + destruct payload as [[?|] [?|] [?|]]; discriminate.
  - destruct Hdb as [-> | ->]; destruct r; cbn [route]; rewrite fmap_snd.
    all: try (unfold create_event, mbind, api_bind, db_is_None; cbn [db];
              try rewrite generate_code_draws; reflexivity).
    all: try (unfold explore_events, join_event, get_event_by_code, get_user,
                find_by_code; api_unfold; reflexivity).
    all: try (unfold upload_media, get_event, list_media_for_event, toggle_like,
                list_comments, add_comment; api_unfold; cbn;
              destruct (ObjectId_parse _) eqn:Hid; reflexivity).
    all: try (unfold upload_media; api_unfold; reflexivity).
    all: destruct payload as [[?|] [?|] [?|]]; reflexivity.
  - intros payload. unfold create_event, mbind, api_bind, db_is_None. cbn [db].
    destruct Hdb as [-> | ->]; [by eexists|].
    rewrite generate_code_draws. by eexists.
  - intros -> payload payload'. by split.
Qed.

(** C8, witness: create-event on a store that is down, upload-media when
    [db] is [None], and get-event with an identifier of 24 characters
    with blanks in it, which [ObjectId] accepts, when [db] is [None]. *)
Lemma requests_without_store_witness :
  outcome_of
    (route (POST_events (CreateEvent.mk "Beach Day" None None "public" None []))
       (World Unreachable (λ _, O))).1
  = Some (fails ServiceUnavailable)
  ∧ outcome_of
      (route (POST_media (UploadMedia.mk "not-an-object-id" "u1" "http://img/1"
                            "photo" None))
         (World NotConfigured (λ _, O))).1
    = Some (fails ServiceUnavailable)
  ∧ outcome_of
      (route (GET_events "00 00 00 00 00 00 00 00 ")
         (World NotConfigured (λ _, O))).1
    = Some (fails ServiceUnavailable).
Proof.
  split_and!.
  - apply (requests_without_store
             (POST_events (CreateEvent.mk "Beach Day" None None "public" None []))
             (World Unreachable (λ _, O))).
    by right.
  - apply (requests_without_store
             (POST_media (UploadMedia.mk "not-an-object-id" "u1" "http://img/1"
                            "photo" None))
             (World NotConfigured (λ _, O))).
    by left.
  - apply (requests_without_store (GET_events "00 00 00 00 00 00 00 00 ")
             (World NotConfigured (λ _, O))).
    by left.
Defined.

(** C8, counterexample: with [db = None], toggle-like with a malformed
    [media_id] fails with InvalidArgument, and an update of a user that
    names no field succeeds. *)
Lemma requests_without_store_not_all_unavailable :
  ∃ f,
    (route (POST_media_like "not-an-object-id" (ToggleLike.mk "u1"))
       (World NotConfigured (λ _, O))).1 = Err f
    ∧ error_class_of f = Some InvalidArgument
    ∧ error_class_of f ≠ Some ServiceUnavailable
    ∧ (route (PUT_user "u1" (UpdateUser.mk None None None))
         (World NotConfigured (λ _, O))).1 = Ok ok_true.
Proof.
  eexists. split; [reflexivity|]. split; [reflexivity|].
  split; [discriminate|reflexivity].
Qed.

(** ** The comment counter *)

Lemma find_one_cons {A} (q : A → bool) x coll :
  find_one q (x :: coll) = if q x then Some x else find_one q coll.
Proof. reflexivity. Qed.

Lemma update_one_lookup {A} (q : A → bool) upd coll i d :
  coll !! i = Some d →
  ∃ d', update_one q upd coll !! i = Some d'
        ∧ (d' = d ∨ d' = upd d ∧ find_one q coll = Some d).
Proof.
  revert i. induction coll as [|x coll IH]; intros i Hi; [done|].
  rewrite find_one_cons. cbn [update_one]. destruct (q x) eqn:Hx.
  - destruct i as [|i]; cbn in *.
    + injection Hi as ->. exists (upd d). split; [done|]. by right.
    + exists d. by split; [|left].
  - destruct i as [|i]; cbn in *.
    + injection Hi as ->. exists d. by split; [|left].
    + apply IH, Hi.
Qed.

Lemma media_kept_same bump s s' :
  Db.media s' = Db.media s → Db.comment s' = Db.comment s →
  media_kept bump s s'.
Proof.
  intros Hm Hc. split; [by rewrite Hc|]. intros i media Hi.
  exists media. rewrite Hm. split_and!; [done|done|lia|by left].
Qed.

Lemma media_kept_insert bump s s' new :
  Db.media s' = Db.media s ++ new → Db.comment s' = Db.comment s →
  media_kept bump s s'.
Proof.
  intros Hm Hc. split; [by rewrite Hc|]. intros i media Hi.
  exists media. rewrite Hm.
  split_and!; [by apply lookup_app_l_Some|done|lia|by left].
Qed.

Lemma media_kept_likes bump s s' q n :
  Db.media s' = update_one q (Media.set_likes_count n) (Db.media s) →
  Db.comment s' = Db.comment s →
  media_kept bump s s'.
Proof.
  intros Hm Hc. split; [by rewrite Hc|]. intros i media Hi.
  destruct (update_one_lookup q (Media.set_likes_count n) _ _ _ Hi)
    as (media' & Hi' & Hcase).
  exists media'. rewrite Hm. split; [done|].
  destruct Hcase as [->|[-> _]]; split_and!; (done || lia || by left).
Qed.

Lemma media_kept_comment s s' obj_id media new :
  find_one (by_id obj_id) (Db.media s) = Some media →
  Db.media s'
  = update_one (by_id obj_id)
      (Media.set_comments_count (comments media + 1)) (Db.media s) →
  Db.comment s' = Db.comment s ++ new →
  media_kept true s s'.
Proof.
  intros Hf Hm Hc. split; [rewrite Hc; by apply prefix_app_r|].
  intros i m Hi.
  destruct (update_one_lookup (by_id obj_id)
              (Media.set_comments_count (comments media + 1)) _ _ _ Hi)
    as (m' & Hi' & Hcase).
  exists m'. rewrite Hm. split; [done|].
  destruct Hcase as [->|[-> Hfm]]; [split_and!; (done || lia || by left)|].
  assert (Some m = Some media) as [= ->]
    by (etrans; [symmetry; exact Hfm|exact Hf]).
  split_and!; [done|cbn; lia|by right].
Qed.

Lemma add_comment_found media_id payload obj_id media s rnd :
  ObjectId_of_str media_id = Some obj_id →
  find_one (by_id obj_id) (Db.media s) = Some media →
  add_comment media_id payload (World (Connected s) rnd)
  = (Ok (),
     World (Connected
       (Db.mk (Db.event s)
          (update_one (by_id obj_id)
             (Media.set_comments_count (comments media + 1)) (Db.media s))
          (Db.comment s
           ++ [Comment.mk (fresh_ObjectId (doc_id <$> Db.comment s)) None
                 media_id (AddComment.user_id payload)
                 (AddComment.text payload)])
          (Db.like s) (Db.userprofile s))) rnd).
Proof.
  intros Hid%ObjectId_of_str_Some Hm. unfold add_comment. api_unfold.
  rewrite Hid. cbn. rewrite Hm.
  pose proof (find_one_Some _ _ _ Hm) as [Hmid%by_id_true _].
  change (doc_id media) with (Media._id media) in Hmid. by rewrite Hmid.
Qed.

Lemma add_comment_no_ObjectId media_id payload s rnd :
  ObjectId_of_str media_id = None →
  ∃ f, add_comment media_id payload (World (Connected s) rnd)
       = (Err f, World (Connected s) rnd).
Proof.
  intros Hid. unfold ObjectId_of_str in Hid. unfold add_comment. api_unfold.
  destruct (ObjectId_parse media_id) as [[obj_id|binary]|]; [done| |by eexists].
  cbn -[find_one]. rewrite find_one_false. by eexists.
Qed.

Lemma add_comment_absent media_id payload obj_id s rnd :
  ObjectId_of_str media_id = Some obj_id →
  find_one (by_id obj_id) (Db.media s) = None →
  add_comment media_id payload (World (Connected s) rnd)
  = (Err (HTTPException 404 "Media not found"), World (Connected s) rnd).
Proof.
  intros Hid%ObjectId_of_str_Some Hm. unfold add_comment. api_unfold.
  rewrite Hid. cbn. by rewrite Hm.
Qed.

(** The routes that only read return the world they were given. *)
Lemma reading_routes_world w :
  (∀ code, (get_event_by_code code w).2 = w)
  ∧ (∀ event_id, (get_event event_id w).2 = w)
  ∧ (∀ event_id sort_, (list_media_for_event event_id sort_ w).2 = w)
  ∧ (∀ media_id, (list_comments media_id w).2 = w)
  ∧ (∀ user_id, (get_user user_id w).2 = w).
Proof.
  destruct w as [[| |s] rnd]; split_and!; intros;
    unfold get_event_by_code, find_by_code, get_event, list_media_for_event,
      list_comments, get_user;
    api_unfold; cbn;
    repeat (match goal with
            | |- context [match ObjectId_parse ?x with _ => _ end] =>
                destruct (ObjectId_parse x)
            | |- context [match find_one ?q ?coll with _ => _ end] =>
                destruct (find_one q coll)
            end; cbn);
    done.
Qed.

Lemma route_media_kept r s rnd :
  ∃ s', db (route r (World (Connected s) rnd)).2 = Connected s'
        ∧ media_kept
            (if r is POST_media_comments _ _ then true else false) s s'.
Proof.
  pose proof (reading_routes_world (World (Connected s) rnd))
    as (Hcode & Hevent & Hmedia & Hcomments & Huser).
  destruct r; cbn [route]; rewrite fmap_snd.
  - rewrite create_event_connected. eexists. split; [done|].
    by apply media_kept_same.
  - rewrite explore_events_connected. eexists. split; [done|].
    by apply media_kept_same.
  - destruct (event_with_code (JoinEvent.code payload) (Db.event s)) eqn:Hev.
    + rewrite (join_event_found _ _ _ _ Hev). eexists. split; [done|].
      by apply media_kept_same.
    + rewrite (join_event_not_found _ _ _ Hev). eexists. split; [done|].
      by apply media_kept_same.
  - rewrite Hcode. eexists. split; [done|]. by apply media_kept_same.
  - rewrite Hevent. eexists. split; [done|]. by apply media_kept_same.
  - unfold upload_media. api_unfold. cbn.
    destruct (ObjectId_parse _) as [obj_id|]; cbn;
      [|eexists; split; [done|]; by apply media_kept_same].
    destruct (find_one (by_parsed obj_id) (Db.event s)); cbn;
      [|eexists; split; [done|]; by apply media_kept_same].
    eexists. split; [done|]. by eapply media_kept_insert.
  - rewrite Hmedia. eexists. split; [done|]. by apply media_kept_same.
  - destruct payload as [user_id].
    destruct (ObjectId_of_str media_id) as [obj_id|] eqn:Hid.
    + destruct (find_one (by_id obj_id) (Db.media s)) as [media|] eqn:Hm.
      * rewrite (toggle_like_found _ _ _ _ _ _ Hid Hm).
        destruct (find_one (like_q media_id user_id) (Db.like s));
          (eexists; split; [done|]; by eapply media_kept_likes).
      * rewrite (toggle_like_absent _ _ (Twelve obj_id) _ rnd
                   (ObjectId_of_str_Some _ _ Hid) Hm).
        eexists. split; [done|]. by apply media_kept_same.
    + destruct (toggle_like_no_ObjectId media_id (ToggleLike.mk user_id)
                  s rnd Hid) as [f ->].
      eexists. split; [done|]. by apply media_kept_same.
  - rewrite Hcomments. eexists. split; [done|]. by apply media_kept_same.
  - destruct (ObjectId_of_str media_id) as [obj_id|] eqn:Hid.
    + destruct (find_one (by_id obj_id) (Db.media s)) as [media|] eqn:Hm.
      * rewrite (add_comment_found _ payload _ _ _ rnd Hid Hm).
        eexists. split; [done|]. by eapply media_kept_comment.
      * rewrite (add_comment_absent _ payload _ _ rnd Hid Hm).
        eexists. split; [done|]. by apply media_kept_same.
    + destruct (add_comment_no_ObjectId media_id payload s rnd Hid)
        as [f ->].
      eexists. split; [done|]. by apply media_kept_same.
  - rewrite Huser. eexists. split; [done|]. by apply media_kept_same.
  - unfold update_user. api_unfold.
    destruct payload as [[?|] [?|] [?|]]; cbn;
      repeat (match goal with
              | |- context [match find_one ?q ?coll with _ => _ end] =>
                  destruct (find_one q coll)
              | |- context [match List.find ?q ?coll with _ => _ end] =>
                  destruct (List.find q coll)
              end; cbn);
      (eexists; split; [done|]; by apply media_kept_same).
Qed.

Lemma comments_count_step r s rnd :
  ∃ s',
    db (route r (World (Connected s) rnd)).2 = Connected s'
    ∧ Db.comment s `prefix_of` Db.comment s'
    ∧ ∀ (i : nat) (media : Media.t),
        Db.media s !! i = Some media →
        ∃ media' : Media.t,
          Db.media s' !! i = Some media'
          ∧ Media._id media' = Media._id media
          ∧ (comments media ≤ comments media')%Z.
Proof.
  destruct (route_media_kept r s rnd) as (s' & Hs' & Hprefix & Hkept).
  exists s'. split_and!; [done..|]. intros i media Hi.
  destruct (Hkept i media Hi) as (media' & ? & ? & ? & _). by exists media'.
Qed.

(** C9.  Serve any request on a connected store [s].  The store stays
    connected; no Comment is removed (the old comment collection is a
    prefix of the new one); and every Media document stays at its place
    with its [_id] and a [comments_count] that did not decrease: it is
    untouched, unless the request is add-comment, which may leave it at
    the value read plus one.  When add-comment succeeds, it has appended
    one Comment and set the [comments_count] of the Media it found to the
    value read plus one. *)
Theorem comments_count_never_decreases (r : request) (s : database)
    (rnd : nat → nat) :
  ∃ s',
    db (route r (World (Connected s) rnd)).2 = Connected s'
    ∧ Db.comment s `prefix_of` Db.comment s'
    ∧ (∀ (i : nat) (media : Media.t),
         Db.media s !! i = Some media →
         ∃ media' : Media.t,
           Db.media s' !! i = Some media'
           ∧ Media._id media' = Media._id media
           ∧ (comments media ≤ comments media')%Z
           ∧ (Media.comments_count media' = Media.comments_count media
              ∨ (∃ media_id payload, r = POST_media_comments media_id payload)
                ∧ Media.comments_count media' = Some (comments media + 1)))
    ∧ (∀ media_id payload,
         r = POST_media_comments media_id payload →
         (route r (World (Connected s) rnd)).1 = Ok ok_true →
         ∃ obj_id media new,
           ObjectId_of_str media_id = Some obj_id
           ∧ find_one (by_id obj_id) (Db.media s) = Some media
           ∧ find_one (by_id obj_id) (Db.media s')
             = Some (Media.set_comments_count (comments media + 1) media)
           ∧ Db.comment s' = Db.comment s ++ [new]
           ∧ Comment.media_id new = media_id).
Proof.
  destruct (route_media_kept r s rnd) as (s' & Hs' & Hprefix & Hkept).
  exists s'. split_and!; [done|done| |].
  - intros i media Hi.
    destruct (Hkept i media Hi) as (media' & Hi' & Hid & Hle & Hcase).
    exists media'. split_and!; [done..|].
    destruct Hcase as [?|[Hbump ?]]; [by left|right]. split; [|done].
    destruct r; try discriminate. by eexists _, _.
  - intros media_id payload -> Hok. cbn [route] in *.
    rewrite fmap_snd in Hs'. rewrite fmap_fst in Hok.
    destruct (ObjectId_of_str media_id) as [obj_id|] eqn:Hid.
    + destruct (find_one (by_id obj_id) (Db.media s)) as [media|] eqn:Hm.
      * rewrite (add_comment_found _ payload _ _ _ rnd Hid Hm) in Hs'.
        injection Hs' as <-. eexists obj_id, media, _.
        split_and!; [done|done| |done|done].
        apply find_one_update_one; [done|]. by apply find_one_Some in Hm as [? _].
      * exfalso. revert Hok.
        by rewrite (add_comment_absent _ payload _ _ rnd Hid Hm).
    + exfalso. revert Hok.
      by destruct (add_comment_no_ObjectId media_id payload s rnd Hid)
        as [f ->].
Qed.

(** Along any sequence of requests served one after the other, a Media
    document keeps its place and its [_id], its [comments_count] never
    goes down, and no Comment is removed. *)
Lemma comments_count_monotone_along_runs s s' :
  rtc step s s' →
  Db.comment s `prefix_of` Db.comment s'
  ∧ ∀ (i : nat) (media : Media.t),
      Db.media s !! i = Some media →
      ∃ media' : Media.t,
        Db.media s' !! i = Some media'
        ∧ Media._id media' = Media._id media
        ∧ (comments media ≤ comments media')%Z.
Proof.
  induction 1 as [s|s1 s2 s3 (r & rnd & Hstep) _ [IHp IH]].
  - split; [done|]. intros i media Hi. exists media. split_and!; [done..|lia].
  - destruct (comments_count_step r s1 rnd) as (s2' & Hs2 & Hp & Hkept).
    rewrite Hstep in Hs2. injection Hs2 as <-.
    split; [by etrans|]. intros i media Hi.
    destruct (Hkept i media Hi) as (m2 & Hi2 & Hid2 & Hle2).
    destruct (IH i m2 Hi2) as (m3 & Hi3 & Hid3 & Hle3).
    exists m3. split_and!; [done|congruence|lia].
Qed.

Lemma serve_all_reachable rs s rnd :
  ∃ s', db (serve_all rs (World (Connected s) rnd)) = Connected s'
        ∧ rtc step s s'.
Proof.
  revert s rnd. induction rs as [|r rs IH]; intros s rnd; cbn.
  - by exists s.
  - destruct (route_media_kept r s rnd) as (s1 & Hs1 & _).
    destruct (route r (World (Connected s) rnd)).2 as [h rnd1] eqn:Hw.
    cbn in Hs1. subst h.
    destruct (IH s1 rnd1) as (s' & Hs' & Hrun).
    exists s'. split; [done|]. eapply rtc_l; [|done].
    exists r, rnd. by rewrite Hw.
Qed.

(** Witness: a media gets its first comment and is then liked. *)
Lemma comments_count_monotone_along_runs_witness :
  ∃ s s' media media',
    db (serve_all a_short_run (World (Connected empty_db) (λ i, i)))
      = Connected s
    ∧ db (serve_all a_comment_then_a_like (World (Connected s) (λ i, i)))
      = Connected s'
    ∧ Db.media s !! 0%nat = Some media
    ∧ Db.media s' !! 0%nat = Some media'
    ∧ Media.comments_count media = Some 0
    ∧ Media.comments_count media' = Some 1
    ∧ (comments media ≤ comments media')%Z.
Proof.
  destruct (serve_all_reachable a_short_run empty_db (λ i, i))
    as (s & Hs & _).
  destruct (serve_all_reachable a_comment_then_a_like s (λ i, i))
    as (s' & Hs' & Hrun).
  destruct (comments_count_monotone_along_runs s s' Hrun) as [_ Hkept].
  vm_compute in Hs. injection Hs as <-.
  vm_compute in Hs'. injection Hs' as <-.
  destruct (Hkept 0%nat _ eq_refl) as (media' & Hi & _ & Hle).
  eexists _, _, _, media'.
  split_and!; [vm_compute; reflexivity..|exact Hi|reflexivity| |exact Hle].
  vm_compute in Hi. by injection Hi as <-.
Defined.

(** ** The like counter on the stores the API builds *)

Lemma route_likes_effect r s rnd :
  ∃ s', db (route r (World (Connected s) rnd)).2 = Connected s'
        ∧ likes_effect s s'.
Proof.
  pose proof (reading_routes_world (World (Connected s) rnd))
    as (Hcode & Hevent & Hmedia & Hcomments & Huser).
  destruct r; cbn [route]; rewrite fmap_snd.
  - rewrite create_event_connected. eexists. split; [done|]. by constructor 1.
  - rewrite explore_events_connected. eexists. split; [done|]. by constructor 1.
  - destruct (event_with_code (JoinEvent.code payload) (Db.event s)) eqn:Hev.
    + rewrite (join_event_found _ _ _ _ Hev). eexists. split; [done|].
      by constructor 1.
    + rewrite (join_event_not_found _ _ _ Hev). eexists. split; [done|].
      by constructor 1.
  - rewrite Hcode. eexists. split; [done|]. by constructor 1.
  - rewrite Hevent. eexists. split; [done|]. by constructor 1.
  - unfold upload_media. api_unfold. cbn.
    destruct (ObjectId_parse _) as [obj_id|]; cbn;
      [|eexists; split; [done|]; by constructor 1].
    destruct (find_one (by_parsed obj_id) (Db.event s)); cbn;
      [|eexists; split; [done|]; by constructor 1].
    eexists. split; [done|]. by eapply effect_upload.
  - rewrite Hmedia. eexists. split; [done|]. by constructor 1.
  - destruct payload as [user_id].
    destruct (ObjectId_of_str media_id) as [obj_id|] eqn:Hid.
    + destruct (find_one (by_id obj_id) (Db.media s)) as [media|] eqn:Hm.
      * rewrite (toggle_like_found _ _ _ _ _ _ Hid Hm).
        destruct (find_one (like_q media_id user_id) (Db.like s)) eqn:Hl;
          (eexists; split; [done|]).
        -- by eapply effect_unlike.
        -- by eapply effect_like.
      * rewrite (toggle_like_absent _ _ (Twelve obj_id) _ rnd
                   (ObjectId_of_str_Some _ _ Hid) Hm).
        eexists. split; [done|]. by constructor 1.
    + destruct (toggle_like_no_ObjectId media_id (ToggleLike.mk user_id)
                  s rnd Hid) as [f ->].
      eexists. split; [done|]. by constructor 1.
  - rewrite Hcomments. eexists. split; [done|]. by constructor 1.
  - destruct (ObjectId_of_str media_id) as [obj_id|] eqn:Hid.
    + destruct (find_one (by_id obj_id) (Db.media s)) as [media|] eqn:Hm.
      * rewrite (add_comment_found _ payload _ _ _ rnd Hid Hm).
        eexists. split; [done|]. by eapply effect_comment.
      * rewrite (add_comment_absent _ payload _ _ rnd Hid Hm).
        eexists. split; [done|]. by constructor 1.
    + destruct (add_comment_no_ObjectId media_id payload s rnd Hid)
        as [f ->].
      eexists. split; [done|]. by constructor 1.
  - rewrite Huser. eexists. split; [done|]. by constructor 1.
  - unfold update_user. api_unfold.
    destruct payload as [[?|] [?|] [?|]]; cbn;
      repeat (match goal with
              | |- context [match find_one ?q ?coll with _ => _ end] =>
                  destruct (find_one q coll)
              | |- context [match List.find ?q ?coll with _ => _ end] =>
                  destruct (List.find q coll)
              end; cbn);
      (eexists; split; [done|]; by constructor 1).
Qed.

Section InvariantFacts.
Context {A : Type} `{Document A}.
Implicit Types (q r : A → bool) (upd : A → A) (coll : list A) (d : A).

Lemma fmap_update_one {B} (g : A → B) q upd coll :
  (∀ d, g (upd d) = g d) → g <$> update_one q upd coll = g <$> coll.
Proof.
  intros Hg. induction coll as [|d coll IH]; cbn; [done|].
  destruct (q d); cbn; by rewrite ?Hg, ?IH.
Qed.

Lemma update_one_by_id oid upd coll :
  NoDup (doc_id <$> coll) →
  update_one (by_id oid) upd coll
  = (λ d, if by_id oid d then upd d else d) <$> coll.
Proof.
  induction coll as [|d coll IH]; cbn; [done|].
  intros [Hd Hnd]%NoDup_cons. destruct (by_id oid d) eqn:Hid.
  - f_equal. clear IH. apply by_id_true in Hid.
    induction coll as [|d' coll IH]; cbn; [done|].
    apply NoDup_cons in Hnd as [_ Hnd]. cbn in Hd.
    apply not_elem_of_cons in Hd as [Hne Hd].
    rewrite <- IH by done.
    destruct (by_id oid d') eqn:Hid'; [|done].
    apply by_id_true in Hid'. congruence.
  - by rewrite IH.
Qed.

Lemma elem_of_delete_one q coll d : d ∈ delete_one q coll → d ∈ coll.
Proof.
  induction coll as [|d' coll IH]; cbn; [done|].
  destruct (q d'); rewrite !elem_of_cons; [by right|].
  intros [->|Hd]; [by left|right; auto].
Qed.

Lemma NoDup_fmap_delete_one {B} (g : A → B) q coll :
  NoDup (g <$> coll) → NoDup (g <$> delete_one q coll).
Proof.
  induction coll as [|d coll IH]; cbn; [done|].
  intros [Hd Hnd]%NoDup_cons. destruct (q d); [done|]. cbn.
  apply NoDup_cons. split; [|auto].
  intros (d' & Hg & Hd')%list_elem_of_fmap_1. apply Hd. rewrite Hg.
  by apply list_elem_of_fmap_2, (elem_of_delete_one q).
Qed.

Lemma count_documents_delete_one_first r q coll l :
  find_one q coll = Some l →
  (count_documents r (delete_one q coll) + (if r l then 1 else 0))%nat
  = count_documents r coll.
Proof.
  unfold count_documents, find.
  induction coll as [|d coll IH]; [done|].
  rewrite find_one_cons. simpl delete_one. destruct (q d).
  - intros [= ->]. simpl. destruct (r l); simpl; lia.
  - intros Hl. simpl. destruct (r d); simpl; rewrite <- (IH Hl); lia.
Qed.

Lemma count_documents_0 q coll :
  (∀ d, d ∈ coll → q d = false) → count_documents q coll = 0%nat.
Proof. intros Hq. by apply find_one_None, find_one_not_elem. Qed.

Lemma find_one_None_elem q coll d :
  find_one q coll = None → d ∈ coll → q d = false.
Proof.
  intros Hf Hd. apply (find_none q coll Hf). by apply list_elem_of_In.
Qed.

Lemma fresh_ObjectId_not_elem (used : list ObjectId) :
  fresh_ObjectId used ∉ used.
Proof. intros Hin%fresh_ObjectId_above. lia. Qed.

End InvariantFacts.

Lemma refers_to_like_q media_id user_id obj_id oid l :
  ObjectId_of_str media_id = Some obj_id →
  like_q media_id user_id l = true →
  refers_to oid l = bool_decide (obj_id = oid).
Proof.
  intros Hid [Hm _]%andb_prop. apply bool_decide_eq_true in Hm.
  unfold refers_to. rewrite Hm, Hid.
  apply bool_decide_ext. split; congruence.
Qed.

Lemma Forall_update_one {A} (P : A → Prop) q upd (coll : list A) :
  Forall P coll → (∀ d, P d → P (upd d)) → Forall P (update_one q upd coll).
Proof.
  intros Hall Hupd. induction Hall as [|d coll Hd Hall IH]; cbn; [done|].
  destruct (q d); constructor; auto.
Qed.

Lemma likes_counted_lookup s media :
  likes_consistent s → media ∈ Db.media s →
  likes media
  = Z.of_nat (count_documents (refers_to (Media._id media)) (Db.like s)).
Proof.
  intros Hs Hm. pose proof (likes_counted s Hs) as Hall.
  rewrite Forall_forall in Hall. unfold likes. by rewrite (Hall media Hm).
Qed.

Lemma likes_effect_consistent s s' :
  likes_consistent s → likes_effect s s' → likes_consistent s'.
Proof.
  intros Hs Heff. pose proof Hs as [Hlids Hpairs Hmids Hrefs Hcount].
  destruct Heff as [Hm Hl|new Hm Hnew Hzero Hl|q n Hm Hl
                   |media_id user_id obj_id media l Hid Hfm Hfl Hl Hm
                   |media_id user_id obj_id media Hid Hfm Hfl Hl Hm].
  - (* nothing written to media or like *)
    split; rewrite ?Hm, ?Hl; done.
  - (* upload *)
    split; rewrite ?Hm, ?Hl; [done|done|..].
    + rewrite fmap_app. apply NoDup_app. split_and!; [done| |apply NoDup_singleton].
      intros oid Hold ->%list_elem_of_singleton.
      change (doc_id new) with (Media._id new) in Hold. rewrite Hnew in Hold.
      by apply fresh_ObjectId_not_elem in Hold.
    + eapply Forall_impl; [exact Hrefs|]. intros l (oid & Hoid & Hl').
      exists oid. split; [|done]. rewrite fmap_app. apply elem_of_app. by left.
    + apply Forall_app. split; [done|]. apply Forall_singleton.
      rewrite Hzero, count_documents_0; [done|].
      intros l Hl'. rewrite Forall_forall in Hrefs.
      destruct (Hrefs l Hl') as (oid & Hoid & Hrf).
      apply bool_decide_eq_false. intros Heq.
      apply bool_decide_eq_true in Hrf. rewrite Hrf in Heq.
      injection Heq as ->. rewrite Hnew in Hoid.
      by apply fresh_ObjectId_not_elem in Hoid.
  - (* a comment: likes_count and _id are kept *)
    assert (doc_id <$> Db.media s' = doc_id <$> Db.media s) as Hids
      by (rewrite Hm; by apply fmap_update_one).
    split; rewrite ?Hids, ?Hl; [done..|].
    rewrite Hm. by apply Forall_update_one.
  - (* the row is removed *)
    pose proof (find_one_Some _ _ _ Hfl) as [Hql Hlin].
    pose proof (find_one_Some _ _ _ Hfm) as [Hmid%by_id_true Hmin].
    assert (Db.like s' = delete_one (like_q media_id user_id) (Db.like s))
      as Hl'.
    { rewrite Hl. apply (delete_one_first _ _ _ l); [done|by apply by_id_true|].
      intros l' Hin Hid'. by apply (NoDup_by_id (Db.like s)). }
    assert (doc_id <$> Db.media s' = doc_id <$> Db.media s) as Hids
      by (rewrite Hm; by apply fmap_update_one).
    split; rewrite ?Hids.
    + rewrite Hl'. by apply NoDup_fmap_delete_one.
    + rewrite Hl'. by apply NoDup_fmap_delete_one.
    + done.
    + rewrite Hl'. rewrite Forall_forall in Hrefs. apply Forall_forall.
      intros l' Hin%elem_of_delete_one. by apply Hrefs.
    + rewrite Hm, update_one_by_id by done. apply Forall_fmap.
      eapply Forall_impl; [apply Forall_forall; intros m Hin; exact Hin|].
      intros m Hin. unfold compose. cbn beta.
      pose proof (likes_counted_lookup s m Hs Hin) as Hlikes.
      pose proof (count_documents_delete_one_first
                    (refers_to (Media._id m)) _ _ _ Hfl) as Hdel.
      rewrite (refers_to_like_q _ _ _ (Media._id m) _ Hid Hql) in Hdel.
      rewrite Hl'. destruct (by_id obj_id m) eqn:Hm'.
      * apply by_id_true in Hm'. change (doc_id m) with (Media._id m) in Hm'.
        rewrite bool_decide_eq_true_2 in Hdel by done.
        pose proof (likes_counted_lookup s media Hs Hmin) as Hlikes'.
        change (doc_id media) with (Media._id media) in Hmid.
        rewrite Hmid, <- Hm' in Hlikes'. cbn. f_equal. lia.
      * rewrite bool_decide_eq_false_2 in Hdel
          by (intros ->; by apply bool_decide_eq_false in Hm').
        rewrite Nat.add_0_r in Hdel. rewrite Hdel.
        rewrite Forall_forall in Hcount. by apply Hcount.
  - (* a row is added *)
    pose proof (find_one_Some _ _ _ Hfm) as [Hmid%by_id_true Hmin].
    change (doc_id media) with (Media._id media) in Hmid.
    assert (doc_id <$> Db.media s' = doc_id <$> Db.media s) as Hids
      by (rewrite Hm; by apply fmap_update_one).
    split; rewrite ?Hids.
    + rewrite Hl, fmap_app.
      apply NoDup_app. split_and!; [done| |apply NoDup_singleton].
      intros oid Hold ->%list_elem_of_singleton.
      by apply fresh_ObjectId_not_elem in Hold.
    + rewrite Hl, fmap_app. apply NoDup_app. split_and!; [done| |apply NoDup_singleton].
      intros pair (l & -> & Hin)%list_elem_of_fmap_1 Heq%list_elem_of_singleton.
      cbn in Heq. injection Heq as Hm1 Hu1.
      pose proof (find_one_None_elem _ _ l Hfl Hin) as Hq.
      unfold like_q in Hq. by rewrite !bool_decide_eq_true_2 in Hq.
    + done.
    + rewrite Hl. apply Forall_app. split; [done|]. apply Forall_singleton.
      exists obj_id. split.
      * rewrite <- Hmid. by apply list_elem_of_fmap_2.
      * unfold refers_to. cbn. by apply bool_decide_eq_true.
    + rewrite Hm, update_one_by_id by done. apply Forall_fmap.
      eapply Forall_impl; [apply Forall_forall; intros m Hin; exact Hin|].
      intros m Hin. unfold compose. cbn beta.
      pose proof (likes_counted_lookup s m Hs Hin) as Hlikes.
      rewrite Hl, count_documents_app.
      destruct (by_id obj_id m) eqn:Hm'; cbn [Media._id Media.set_likes_count];
        rewrite (refers_to_like_q media_id user_id obj_id (Media._id m))
          by (done || apply like_q_new).
      * apply by_id_true in Hm'. change (doc_id m) with (Media._id m) in Hm'.
        rewrite bool_decide_eq_true_2 by done.
        pose proof (likes_counted_lookup s media Hs Hmin) as Hlikes'.
        rewrite Hmid, <- Hm' in Hlikes'. cbn. f_equal. lia.
      * rewrite bool_decide_eq_false_2
          by (intros ->; by apply bool_decide_eq_false in Hm').
        rewrite Nat.add_0_r.
        rewrite Forall_forall in Hcount. by apply Hcount.
Qed.

Lemma count_documents_le {A} (q r : A → bool) (coll : list A) :
  (∀ d, q d = true → r d = true) →
  (count_documents q coll ≤ count_documents r coll)%nat.
Proof.
  intros Hqr. unfold count_documents, find.
  induction coll as [|d coll IH]; [done|]. simpl.
  destruct (q d) eqn:Hq; [rewrite (Hqr d Hq)|destruct (r d)]; simpl; lia.
Qed.

Lemma count_documents_key {A B} (g : A → B) (k : B) (q : A → bool)
    (coll : list A) :
  NoDup (g <$> coll) → (∀ d, q d = true → g d = k) →
  (count_documents q coll ≤ 1)%nat.
Proof.
  intros Hnd Hq. unfold count_documents, find.
  induction coll as [|d coll IH]; simpl; [lia|].
  cbn in Hnd. apply NoDup_cons in Hnd as [Hd Hnd].
  destruct (q d) eqn:Hqd; [|auto]. simpl.
  fold (find q coll). fold (count_documents q coll).
  rewrite count_documents_0; [lia|].
  intros d' Hd'. destruct (q d') eqn:Hqd'; [|done].
  exfalso. apply Hd. rewrite (Hq d Hqd), <- (Hq d' Hqd').
  by apply list_elem_of_fmap_2.
Qed.

Lemma likes_consistent_empty : likes_consistent empty_db.
Proof. split; cbn; constructor. Qed.

Lemma likes_consistent_step s s' :
  likes_consistent s → step s s' → likes_consistent s'.
Proof.
  intros Hs (r & rnd & Hstep).
  destruct (route_likes_effect r s rnd) as (s'' & Hs'' & Heff).
  rewrite Hstep in Hs''. injection Hs'' as <-.
  by apply (likes_effect_consistent s).
Qed.

Lemma likes_consistent_run s s' :
  likes_consistent s → rtc step s s' → likes_consistent s'.
Proof.
  intros Hs Hrun. induction Hrun; eauto using likes_consistent_step.
Qed.

(** In every store that a sequence of requests builds from the empty
    store, the like collection and the counter of any Media meet the
    conditions under which two toggles cancel: [_id]s are distinct, the
    pair [(media_id, user_id)] has at most one row, and [likes_count] is
    not below the number of those rows. *)
Theorem toggle_like_conditions_reachable (s : database)
    (media_id user_id : string) (obj_id : ObjectId) (media : Media.t) :
  rtc step empty_db s →
  ObjectId_of_str media_id = Some obj_id →
  find_one (by_id obj_id) (Db.media s) = Some media →
  likes_consistent s
  ∧ NoDup (doc_id <$> Db.like s)
  ∧ (count_documents (like_q media_id user_id) (Db.like s) ≤ 1)%nat
  ∧ (Z.of_nat (count_documents (like_q media_id user_id) (Db.like s))
     ≤ likes media)%Z.
Proof.
  intros Hrun Hid Hm.
  pose proof (likes_consistent_run _ _ likes_consistent_empty Hrun) as Hs.
  pose proof (find_one_Some _ _ _ Hm) as [Hmid%by_id_true Hmin].
  change (doc_id media) with (Media._id media) in Hmid.
  split_and!; [done|by destruct Hs| |].
  - apply (count_documents_key (λ l, (Like.media_id l, Like.user_id l))
             (media_id, user_id)); [by destruct Hs|].
    intros l [Hl1 Hl2]%andb_prop.
    apply bool_decide_eq_true in Hl1, Hl2. by rewrite Hl1, Hl2.
  - rewrite (likes_counted_lookup s media Hs Hmin), Hmid.
    apply inj_le, count_documents_le. intros l Hl.
    rewrite (refers_to_like_q _ _ _ obj_id _ Hid Hl).
    by apply bool_decide_eq_true.
Qed.

(** Witness: the store after an event is created, a media uploaded to it
    and liked once. *)
Lemma toggle_like_conditions_reachable_witness :
  ∃ s media,
    db (serve_all a_short_run (World (Connected empty_db) (λ i, i)))
      = Connected s
    ∧ find_one (by_id 1%N) (Db.media s) = Some media
    ∧ Media.likes_count media = Some 1
    ∧ (count_documents (like_q "000000000000000000000001" "u1") (Db.like s)
       ≤ 1)%nat
    ∧ (Z.of_nat
         (count_documents (like_q "000000000000000000000001" "u1") (Db.like s))
       ≤ likes media)%Z.
Proof.
  destruct (serve_all_reachable a_short_run empty_db (λ i, i))
    as (s & Hs & Hrun).
  assert (∃ media, find_one (by_id 1%N) (Db.media s) = Some media
                   ∧ Media.likes_count media = Some 1) as (media & Hm & Hl).
  { vm_compute in Hs. injection Hs as <-. by eexists. }
  destruct (toggle_like_conditions_reachable s "000000000000000000000001"
              "u1" 1%N media Hrun eq_refl Hm) as (_ & _ & Hone & Hle).
  by exists s, media.
Defined.

(** ** Toggling a like twice *)

(** One toggle by [user_id] under [media_id], on a store whose Like rows
    have distinct [_id]s ([delta] is [-1] when the row exists and [1]
    when it does not). *)
Lemma toggle_like_once (s : database) (rnd : nat → nat)
    (media_id user_id : string) (obj_id : ObjectId) (media : Media.t) :
  let q := like_q media_id user_id in
  let delta := if find_one q (Db.like s) is Some _ then -1 else 1 in
  let media1 := Media.set_likes_count (Z.max 0 (likes media + delta)) media in
  ObjectId_of_str media_id = Some obj_id →
  find_one (by_id obj_id) (Db.media s) = Some media →
  NoDup (doc_id <$> Db.like s) →
  ∃ s1,
    toggle_like media_id (ToggleLike.mk user_id) (World (Connected s) rnd)
      = (Ok (serialize_media media1), World (Connected s1) rnd)
    ∧ find_one (by_id obj_id) (Db.media s1) = Some media1
    ∧ NoDup (doc_id <$> Db.like s1)
    ∧ Z.of_nat (count_documents q (Db.like s1))
      = Z.of_nat (count_documents q (Db.like s)) + delta
    ∧ find (λ l, negb (q l)) (Db.like s1) = find (λ l, negb (q l)) (Db.like s).
Proof.
  intros q delta media1 Hid Hm Hnd. subst media1 delta.
  rewrite (toggle_like_found _ _ _ _ _ _ Hid Hm). fold q.
  pose proof (find_one_Some _ _ _ Hm) as [Hq _].
  destruct (find_one q (Db.like s)) as [l|] eqn:Hl.
  - pose proof (find_one_is_Some_count _ _ _ Hl) as Hge.
    pose proof (find_one_Some _ _ _ Hl) as [Hql Hlin].
    assert (delete_one (by_id (Like._id l)) (Db.like s) = delete_one q (Db.like s))
      as Hdel.
    { apply (delete_one_first q _ _ l); [done|by apply by_id_true|].
      intros l' Hl' Hid'. by apply (NoDup_by_id (Db.like s)). }
    eexists. split; [reflexivity|]. cbn [Db.like Db.media]. rewrite Hdel.
    split_and!.
    + by apply find_one_update_one.
    + by apply NoDup_fmap_delete_one.
    + rewrite count_documents_delete_one. lia.
    + apply find_delete_one_other. by intros l' ->.
  - pose proof (proj1 (find_one_None _ _) Hl) as H0.
    set (new := Like.mk (fresh_ObjectId (doc_id <$> Db.like s)) media_id user_id).
    assert (q new = true) as Hqnew by apply like_q_new.
    eexists. split; [reflexivity|]. cbn [Db.like Db.media]. fold new.
    split_and!.
    + by apply find_one_update_one.
    + rewrite fmap_app. apply NoDup_app. split_and!; [done| |apply NoDup_singleton].
      intros oid Hold ->%list_elem_of_singleton.
      by apply fresh_ObjectId_not_elem in Hold.
    + rewrite count_documents_app, Hqnew. lia.
    + rewrite find_app, Hqnew. cbn. by rewrite app_nil_r.
Qed.

(** C1 (amended).  Take a Media found under [media_id] whose
    [likes_count] is below [2^63 - 1], in a store whose Like rows have
    distinct [_id]s.  Two toggles in a row by the same user both succeed.
    Each toggle removes one Like row of [(media_id, user_id)] and
    subtracts one from the count it read, floored at 0, when such a row
    exists, and otherwise inserts exactly one such row and adds one to the
    count it read; rows of other pairs are untouched, and every count
    written is an integer that BSON can hold.  The media is back at its
    original [likes_count], in the response and in the store, and the
    pair has the rows it had, when at most one row of the pair exists and
    the [likes_count] is at least the number of those rows. *)
Theorem toggle_like_twice (s : database) (rnd : nat → nat)
    (media_id user_id : string) (obj_id : ObjectId) (media : Media.t) :
  let q := like_q media_id user_id in
  let toggle := toggle_like media_id (ToggleLike.mk user_id) in
  let delta (like : list Like.t) : Z :=
    if find_one q like is Some _ then -1 else 1 in
  ObjectId_of_str media_id = Some obj_id →
  find_one (by_id obj_id) (Db.media s) = Some media →
  NoDup (doc_id <$> Db.like s) →
  (likes media < 2 ^ 63 - 1)%Z →
  ∃ m1 s1 m2 s2 (count1 count2 : Z),
    toggle (World (Connected s) rnd) = (Ok m1, World (Connected s1) rnd)
    ∧ toggle (World (Connected s1) rnd) = (Ok m2, World (Connected s2) rnd)
    ∧ Z.of_nat (count_documents q (Db.like s1))
      = (Z.of_nat (count_documents q (Db.like s)) + delta (Db.like s))%Z
    ∧ Z.of_nat (count_documents q (Db.like s2))
      = (Z.of_nat (count_documents q (Db.like s1)) + delta (Db.like s1))%Z
    ∧ find (λ l, negb (q l)) (Db.like s1) = find (λ l, negb (q l)) (Db.like s)
    ∧ find (λ l, negb (q l)) (Db.like s2) = find (λ l, negb (q l)) (Db.like s)
    ∧ count1 = Z.max 0 (likes media + delta (Db.like s))
    ∧ count2 = Z.max 0 (count1 + delta (Db.like s1))
    ∧ Media.likes_count m1 = Some count1
    ∧ Media.likes_count m2 = Some count2
    ∧ Media.likes_count <$> find_one (by_id obj_id) (Db.media s1)
      = Some (Some count1)
    ∧ Media.likes_count <$> find_one (by_id obj_id) (Db.media s2)
      = Some (Some count2)
    ∧ (count1 ≤ 2 ^ 63 - 1)%Z ∧ (count2 ≤ 2 ^ 63 - 1)%Z
    ∧ ((count_documents q (Db.like s) ≤ 1)%nat →
       (Z.of_nat (count_documents q (Db.like s)) ≤ likes media)%Z →
       count_documents q (Db.like s2) = count_documents q (Db.like s)
       ∧ count2 = likes media).
Proof.
  intros q toggle delta Hid Hm Hnd Hrange. subst toggle.
  destruct (toggle_like_once s rnd media_id user_id obj_id media Hid Hm Hnd)
    as (s1 & Hrun1 & Hm1 & Hnd1 & Hcount1 & Hother1).
  fold q in Hrun1, Hm1, Hcount1, Hother1. fold (delta (Db.like s)) in *.
  set (count1 := Z.max 0 (likes media + delta (Db.like s))) in *.
  set (media1 := Media.set_likes_count count1 media) in *.
  destruct (toggle_like_once s1 rnd media_id user_id obj_id media1 Hid Hm1 Hnd1)
    as (s2 & Hrun2 & Hm2 & Hnd2 & Hcount2 & Hother2).
  fold q in Hrun2, Hm2, Hcount2, Hother2. fold (delta (Db.like s1)) in *.
  assert (likes media1 = count1) as Hlikes1 by done. rewrite Hlikes1 in *.
  set (count2 := Z.max 0 (count1 + delta (Db.like s1))) in *.
  assert (delta (Db.like s) = 1 → delta (Db.like s1) = -1) as Hback.
  { unfold delta. destruct (find_one q (Db.like s)) eqn:Hl; [done|]. intros _.
    destruct (find_one q (Db.like s1)) eqn:Hl1; [done|].
    apply find_one_None in Hl, Hl1. fold q in Hcount1.
    rewrite Hl, Hl1 in Hcount1. unfold delta in Hcount1.
    apply find_one_None in Hl. rewrite Hl in Hcount1. lia. }
  assert (delta (Db.like s) = -1 ∨ delta (Db.like s) = 1) as Hd0.
  { unfold delta. destruct (find_one q (Db.like s)); auto. }
  assert (delta (Db.like s1) = -1 ∨ delta (Db.like s1) = 1) as Hd1.
  { unfold delta. destruct (find_one q (Db.like s1)); auto. }
  exists (serialize_media media1), s1,
    (serialize_media (Media.set_likes_count count2 media1)), s2, count1, count2.
  split_and!; try done.
  - by rewrite Hother2.
  - by rewrite Hm1.
  - by rewrite Hm2.
  - subst count1. lia.
  - subst count2 count1. lia.
  - intros Hone Hle.
    assert (delta (Db.like s) = -1 → delta (Db.like s1) = 1) as Hforth.
    { intros Hd. unfold delta. destruct (find_one q (Db.like s1)) eqn:Hl1; [|done].
      apply find_one_is_Some_count in Hl1. lia. }
    subst count2 count1. lia.
Qed.

(** C1, witness: a media nobody likes yet. *)
Lemma toggle_like_twice_witness :
  ∃ m1 s1 m2 s2,
    toggle_like "00000000000000000000000a" (ToggleLike.mk "u1")
      (World (Connected fresh_media_db) (λ _, O))
      = (Ok m1, World (Connected s1) (λ _, O))
    ∧ toggle_like "00000000000000000000000a" (ToggleLike.mk "u1")
        (World (Connected s1) (λ _, O))
      = (Ok m2, World (Connected s2) (λ _, O))
    ∧ Media.likes_count m1 = Some 1
    ∧ Media.likes_count m2 = Some 0.
Proof.
  destruct (toggle_like_twice fresh_media_db (λ _, O)
              "00000000000000000000000a" "u1" 10%N a_media_doc)
    as (m1 & s1 & m2 & s2 & count1 & count2 & H1 & H2 & _ & _ & _ & _
        & Hc1 & _ & Hm1 & Hm2 & _ & _ & _ & _ & Hback).
  - reflexivity.
  - reflexivity.
  - apply NoDup_nil_2.
  - by vm_compute.
  - exists m1, s1, m2, s2. split_and!; [exact H1|exact H2| |].
    + by rewrite Hm1, Hc1.
    + destruct Hback as [_ Hc2]; [vm_compute; lia|vm_compute; discriminate|].
      by rewrite Hm2, Hc2.
Defined.

(** C1, counterexample: a Like row next to a [likes_count] of 0.  The first
    toggle removes the row and the floor keeps the count at 0; the second
    adds the row back and counts 1. *)
Lemma toggle_like_twice_floor_drift :
  ∃ media m1 w1 m2 w2,
    find_one (by_id 10%N) (Db.media drifted_db) = Some media
    ∧ Media.likes_count media = Some 0
    ∧ toggle_like "00000000000000000000000a" (ToggleLike.mk "u1")
        (World (Connected drifted_db) (λ _, O)) = (Ok m1, w1)
    ∧ toggle_like "00000000000000000000000a" (ToggleLike.mk "u1") w1
        = (Ok m2, w2)
    ∧ Media.likes_count m1 = Some 0
    ∧ Media.likes_count m2 = Some 1
    ∧ Media.likes_count m2 ≠ Media.likes_count media.
Proof.
  eexists _, _, _, _, _. repeat split; try (vm_compute; reflexivity).
  vm_compute. discriminate.
Qed.

(** * Further properties of the routes *)

(** ** Sorted listings *)

Section SortFacts.
Context {A : Type} (le : A → A → bool).
Hypothesis le_total : ∀ a b, le a b = true ∨ le b a = true.

Lemma sort_insert_Permutation d sorted : sort_insert le d sorted ≡ₚ d :: sorted.
Proof.
  induction sorted as [|d' sorted IH]; cbn; [done|].
  destruct (le d d'); [done|]. rewrite IH. apply Permutation_swap.
Qed.

Lemma sort_Permutation cursor : sort le cursor ≡ₚ cursor.
Proof.
  unfold sort. induction cursor as [|d cursor IH]; cbn; [done|].
  by rewrite sort_insert_Permutation, IH.
Qed.

Lemma sort_insert_HdRel a d sorted :
  le a d = true → HdRel (λ x y, le x y = true) a sorted →
  HdRel (λ x y, le x y = true) a (sort_insert le d sorted).
Proof.
  intros Had Hhd. destruct sorted as [|d' sorted]; cbn; [by constructor|].
  destruct (le d d'); constructor; [done|]. by inversion Hhd.
Qed.

Lemma sort_insert_Sorted d sorted :
  Sorted (λ x y, le x y = true) sorted →
  Sorted (λ x y, le x y = true) (sort_insert le d sorted).
Proof.
  induction 1 as [|d' sorted Hs IH Hhd]; cbn; [by repeat constructor|].
  destruct (le d d') eqn:Hle.
  - constructor; [by constructor|by constructor].
  - constructor; [done|]. apply sort_insert_HdRel; [|done].
    by destruct (le_total d d') as [?|?]; [congruence|].
Qed.

Lemma sort_Sorted cursor : Sorted (λ x y, le x y = true) (sort le cursor).
Proof.
  unfold sort. induction cursor as [|d cursor IH]; cbn; [constructor|].
  by apply sort_insert_Sorted.
Qed.

End SortFacts.

Lemma option_le_total {K} (le : K → K → bool) :
  (∀ a b, le a b = true ∨ le b a = true) →
  ∀ a b, option_le le a b = true ∨ option_le le b a = true.
Proof. intros Hle [a|] [b|]; cbn; auto. Qed.

Lemma Z_leb_total (a b : Z) : (a <=? b)%Z = true ∨ (b <=? a)%Z = true.
Proof. destruct (Z.leb_spec a b); [by left|right]. apply Z.leb_le. lia. Qed.

(** With a well-formed [event_id] and a connected store, each of the three
    recognised sorts lists exactly the Media of the event, as a
    rearrangement of what the collection holds: by [user_id] ascending for
    ["participant"], by [challenge] ascending with the media that have no
    challenge first for ["challenge"], and by [created_at] descending with
    the media that have no [created_at] last for ["time"].  Nothing is
    written. *)
Theorem list_media_sorted (event_id sort_ : string) (s : database)
    (rnd : nat → nat) :
  is_Some (ObjectId_of_str event_id) →
  sort_ = "time" ∨ sort_ = "participant" ∨ sort_ = "challenge" →
  ∃ docs : list Media.t,
    list_media_for_event event_id sort_ (World (Connected s) rnd)
      = (Ok (serialize_media <$> docs), World (Connected s) rnd)
    ∧ docs ≡ₚ find (λ m, bool_decide (Media.event_id m = event_id)) (Db.media s)
    ∧ (sort_ = "participant" →
       Sorted (λ a b, String.leb (Media.user_id a) (Media.user_id b) = true)
         docs)
    ∧ (sort_ = "challenge" →
       Sorted (λ a b, option_le String.leb (Media.challenge a)
                        (Media.challenge b) = true) docs)
    ∧ (sort_ = "time" →
       Sorted (λ a b, option_le Z.leb (Media.created_at b)
                        (Media.created_at a) = true) docs).
Proof.
  intros [obj_id Hid%ObjectId_of_str_Some] Hsort.
  unfold list_media_for_event. api_unfold. rewrite Hid. cbn.
  destruct Hsort as [->|[->| ->]]; cbn; eexists; (split; [reflexivity|]);
    (split; [apply sort_Permutation|]); split_and!; try discriminate; intros _.
  - apply (sort_Sorted (descending (option_le Z.leb) Media.created_at)).
    intros a b. apply option_le_total, Z_leb_total.
  - apply (sort_Sorted (ascending String.leb Media.user_id)).
    intros a b. apply String.leb_total.
  - apply (sort_Sorted (ascending (option_le String.leb) Media.challenge)).
    intros a b. apply option_le_total, String.leb_total.
Qed.

(** Witness: the two media of [two_media_db], listed by participant. *)
Lemma list_media_sorted_witness :
  ∃ docs : list Media.t,
    list_media_for_event "000000000000000000000001" "participant"
      (World (Connected two_media_db) (λ _, O))
      = (Ok (serialize_media <$> docs),
         World (Connected two_media_db) (λ _, O))
    ∧ docs ≡ₚ Db.media two_media_db
    ∧ Sorted (λ a b, String.leb (Media.user_id a) (Media.user_id b) = true)
        docs.
Proof.
  destruct (list_media_sorted "000000000000000000000001" "participant"
              two_media_db (λ _, O)) as (docs & Hrun & Hperm & Hsorted & _);
    [by eexists|by right; left|].
  exists docs. split; [exact Hrun|]. split; [exact Hperm|by apply Hsorted].
Defined.

(** ** Identifiers as text *)

Lemma hex_value_hex_digit (d : N) :
  (d < 16)%N → hex_value (hex_digit d) = Some d.
Proof.
  intros Hd.
  assert (d ∈ N.of_nat <$> seq 0 16) as Hin.
  { apply list_elem_of_fmap. exists (N.to_nat d).
    split; [by rewrite N2Nat.id|]. apply elem_of_seq. lia. }
  cbn in Hin. set_unfold in Hin.
  repeat (destruct Hin as [->|Hin]; [reflexivity|]). done.
Qed.

Lemma is_space_hex_digit (d : N) : (d < 16)%N → is_space (hex_digit d) = false.
Proof.
  intros Hd.
  assert (d ∈ N.of_nat <$> seq 0 16) as Hin.
  { apply list_elem_of_fmap. exists (N.to_nat d).
    split; [by rewrite N2Nat.id|]. apply elem_of_seq. lia. }
  cbn in Hin. set_unfold in Hin.
  repeat (destruct Hin as [->|Hin]; [reflexivity|]). done.
Qed.

Lemma bytes_fromhex_hexlify k n acc :
  bytes_fromhex (hexlify (2 * k) n acc)
  = (λ rest, big_endian_bytes k n ++ rest) <$> bytes_fromhex acc.
Proof.
  revert n acc. induction k as [|k IH]; intros n acc.
  - change (2 * 0)%nat with 0%nat. cbn [hexlify big_endian_bytes].
    destruct (bytes_fromhex acc); reflexivity.
  - replace (2 * S k)%nat with (S (S (2 * k))) by lia.
    cbn [hexlify big_endian_bytes]. rewrite IH. cbn [bytes_fromhex].
    rewrite is_space_hex_digit by (apply N.mod_lt; lia).
    rewrite !hex_value_hex_digit by (apply N.mod_lt; lia).
    rewrite N.Div0.div_div. change (16 * 16)%N with 256%N.
    replace (16 * ((n / 16) mod 16) + n mod 16)%N with (n mod 256)%N
      by (change 256%N with (16 * 16)%N;
          rewrite (N.Div0.mod_mul_r n 16 16); lia).
    destruct (bytes_fromhex acc) as [rest|]; cbn; [|done].
    by rewrite <- app_assoc.
Qed.

Lemma length_big_endian_bytes k n : length (big_endian_bytes k n) = k.
Proof.
  revert n. induction k as [|k IH]; intros n; cbn; [done|].
  rewrite length_app, IH. cbn. lia.
Qed.

Lemma big_endian_bytes_value k n :
  big_endian (big_endian_bytes k n) = (n mod 256 ^ N.of_nat k)%N.
Proof.
  unfold big_endian. revert n. induction k as [|k IH]; intros n.
  - cbn. by rewrite N.mod_1_r.
  - cbn [big_endian_bytes]. rewrite foldl_app, IH. cbn [foldl].
    rewrite Nat2N.inj_succ, N.pow_succ_r'.
    rewrite (N.Div0.mod_mul_r n 256 (256 ^ N.of_nat k)). lia.
Qed.

Lemma length_hexlify digits n acc :
  String.length (hexlify digits n acc) = (digits + String.length acc)%nat.
Proof.
  revert n acc. induction digits as [|k IH]; intros n acc; cbn [hexlify]; [done|].
  rewrite IH. cbn. lia.
Qed.

(** Every 12-byte ObjectId is read back from its text. *)
Lemma ObjectId_of_str_of_ObjectId (oid : ObjectId) :
  (oid < 2 ^ 96)%N → ObjectId_of_str (str_of_ObjectId oid) = Some oid.
Proof.
  intros Hoid. unfold ObjectId_of_str, ObjectId_parse, str_of_ObjectId.
  rewrite length_hexlify. cbn [String.length Nat.add Nat.eqb].
  change 24%nat with (2 * 12)%nat. rewrite bytes_fromhex_hexlify.
  cbn [bytes_fromhex fmap option_fmap option_map].
  rewrite app_nil_r, length_big_endian_bytes. cbn [Nat.eqb].
  rewrite big_endian_bytes_value. f_equal.
  change (256 ^ N.of_nat 12)%N with (2 ^ 96)%N. by rewrite N.mod_small.
Qed.

(** ** Reading an event back *)

Lemma get_event_connected event_id s rnd :
  get_event event_id (World (Connected s) rnd)
  = (match ObjectId_parse event_id with
     | None => Err (HTTPException 400 "Invalid event id")
     | Some obj_id =>
         match find_one (by_parsed obj_id) (Db.event s) with
         | None => Err (HTTPException 404 "Event not found")
         | Some event => Ok (serialize_event event)
         end
     end, World (Connected s) rnd).
Proof.
  unfold get_event. api_unfold.
  destruct (ObjectId_parse event_id) as [obj_id|]; cbn -[find_one]; [|done].
  by destruct (find_one (by_parsed obj_id) (Db.event s)).
Qed.

(** get-event answers an [event_id] that [ObjectId] does not accept with
    status 400 whatever the state of the store, also when [db] is [None].
    On a connected store an accepted id that is the [_id] of no Event
    gives status 404, which is always so for an id that holds fewer than
    twelve bytes (24 characters with blanks among them), and an id that
    some Event carries gives that Event, serialized.  In every case the
    world is returned as it was. *)
Theorem get_event_outcomes (event_id : string) (w : world) :
  (ObjectId_parse event_id = None →
   get_event event_id w = (Err (HTTPException 400 "Invalid event id"), w))
  ∧ (∀ obj_id s,
       ObjectId_parse event_id = Some (Twelve obj_id) → db w = Connected s →
       (∀ e, e ∈ Db.event s → Event._id e ≠ obj_id) →
       get_event event_id w = (Err (HTTPException 404 "Event not found"), w))
  ∧ (∀ binary s,
       ObjectId_parse event_id = Some (Fewer binary) → db w = Connected s →
       get_event event_id w = (Err (HTTPException 404 "Event not found"), w))
  ∧ (∀ obj_id s e,
       ObjectId_parse event_id = Some (Twelve obj_id) → db w = Connected s →
       e ∈ Db.event s → Event._id e = obj_id →
       ∃ e0, get_event event_id w = (Ok (serialize_event e0), w)
             ∧ e0 ∈ Db.event s ∧ Event._id e0 = obj_id)
  ∧ (get_event event_id w).2 = w.
Proof.
  split_and!.
  - intros Hid. unfold get_event. api_unfold. by rewrite Hid.
  - intros obj_id s Hid Hdb Habsent. destruct w as [h rnd]. cbn in Hdb. subst h.
    rewrite get_event_connected, Hid. cbn [by_parsed].
    rewrite find_one_not_elem; [done|].
    intros e He. apply bool_decide_eq_false. by apply Habsent.
  - intros binary s Hid Hdb. destruct w as [h rnd]. cbn in Hdb. subst h.
    by rewrite get_event_connected, Hid, find_one_Fewer.
  - intros obj_id s e Hid Hdb He Heid. destruct w as [h rnd]. cbn in Hdb. subst h.
    rewrite get_event_connected, Hid. cbn [by_parsed].
    destruct (find_one_elem (by_id obj_id) (Db.event s) e He)
      as [e0 He0]; [by apply by_id_true|].
    rewrite He0. exists e0. split; [done|].
    apply find_one_Some in He0 as [Hq Hin]. split; [done|].
    by apply by_id_true in Hq.
  - apply reading_routes_world.
Qed.

(** Witness: the outcomes on the store with one event; the third
    [event_id] has 24 characters with blanks among them. *)
Lemma get_event_outcomes_witness :
  get_event "not-an-object-id" (World NotConfigured (λ _, O))
  = (Err (HTTPException 400 "Invalid event id"), World NotConfigured (λ _, O))
  ∧ get_event "0000000000000000000000ff"
      (World (Connected one_event_db) (λ _, O))
    = (Err (HTTPException 404 "Event not found"),
       World (Connected one_event_db) (λ _, O))
  ∧ get_event "00 00 00 00 00 00 00 00 "
      (World (Connected one_event_db) (λ _, O))
    = (Err (HTTPException 404 "Event not found"),
       World (Connected one_event_db) (λ _, O))
  ∧ ∃ e0, get_event "000000000000000000000001"
            (World (Connected one_event_db) (λ _, O))
          = (Ok (serialize_event e0), World (Connected one_event_db) (λ _, O))
          ∧ Event.title e0 = "Beach Day".
Proof.
  split_and!.
  - by apply (get_event_outcomes "not-an-object-id"
                (World NotConfigured (λ _, O))).
  - destruct (get_event_outcomes "0000000000000000000000ff"
                (World (Connected one_event_db) (λ _, O)))
      as (_ & Habsent & _).
    apply (Habsent 255%N one_event_db); [reflexivity..|].
    intros e ->%list_elem_of_singleton. discriminate.
  - destruct (get_event_outcomes "00 00 00 00 00 00 00 00 "
                (World (Connected one_event_db) (λ _, O)))
      as (_ & _ & Hfewer & _).
    apply (Hfewer [0; 0; 0; 0; 0; 0; 0; 0]%N one_event_db); reflexivity.
  - destruct (get_event_outcomes "000000000000000000000001"
                (World (Connected one_event_db) (λ _, O)))
      as (_ & _ & _ & Hfound & _).
    destruct (Hfound 1%N one_event_db an_event_doc) as (e0 & Hrun & Hin & _);
      [reflexivity|reflexivity|by apply list_elem_of_singleton|reflexivity|].
    exists e0. split; [exact Hrun|].
    by apply list_elem_of_singleton in Hin as ->.
Defined.

(** An event that create-event made is read back by get-event from the
    [_id] the creation returned: the answer is the created event, and the
    store is as the creation left it.  (The condition says that the new
    [_id] fits in twelve bytes.) *)
Theorem create_event_then_get_event (payload : CreateEvent.t) (s : database)
    (rnd : nat → nat) :
  (fresh_ObjectId (doc_id <$> Db.event s) < 2 ^ 96)%N →
  ∃ e w1,
    create_event payload (World (Connected s) rnd) = (Ok e, w1)
    ∧ Event.title e = CreateEvent.title payload
    ∧ get_event (Event._id e) w1 = (Ok e, w1).
Proof.
  intros Hfresh. rewrite create_event_connected. cbn zeta.
  eexists _, _. split; [reflexivity|]. split; [reflexivity|].
  rewrite get_event_connected. cbn [serialize_event Event._id Db.event].
  rewrite (ObjectId_of_str_Some _ _ (ObjectId_of_str_of_ObjectId _ Hfresh)).
  cbn [by_parsed].
  rewrite find_one_app_None.
  - by rewrite (proj2 (by_id_true _ _)).
  - apply find_one_not_elem. intros e He. by apply fresh_ObjectId_fresh.
Qed.

(** Witness: the first event of an empty store. *)
Lemma create_event_then_get_event_witness :
  ∃ e w1,
    create_event (CreateEvent.mk "Beach Day" None None "public" None [])
      (World (Connected empty_db) (λ i, i)) = (Ok e, w1)
    ∧ Event.title e = "Beach Day"
    ∧ get_event (Event._id e) w1 = (Ok e, w1).
Proof.
  apply (create_event_then_get_event
           (CreateEvent.mk "Beach Day" None None "public" None [])
           empty_db (λ i, i)).
  by vm_compute.
Defined.

Lemma get_event_by_code_connected code s rnd :
  get_event_by_code code (World (Connected s) rnd)
  = (match event_with_code code (Db.event s) with
     | None => Err (HTTPException 404 "Event not found")
     | Some event => Ok (serialize_event event)
     end, World (Connected s) rnd).
Proof.
  unfold get_event_by_code, mbind, api_bind.
  rewrite find_by_code_connected. by destruct (event_with_code _ _).
Qed.

(** get-event-by-code, asked for a code of ASCII characters on a connected
    store, looks for the upper-cased code
    first: if some Event has it, the first such Event in the collection is
    returned, whatever the case of the letters in the request.  Only when
    no Event has the upper-cased code is the code tried as it was given,
    and the first Event with exactly that code is returned.  When neither
    is carried by an Event the answer is status 404.  The world is
    returned as it was. *)
Theorem get_event_by_code_lookup (code : string) (s : database)
    (rnd : nat → nat) :
  let w := World (Connected s) rnd in
  let has c := λ e : Event.t, bool_decide (Event.code e = c) in
  is_ascii code = true →
  (∀ e, e ∈ Db.event s → Event.code e = upper code →
     ∃ e0, get_event_by_code code w = (Ok (serialize_event e0), w)
           ∧ find_one (has (upper code)) (Db.event s) = Some e0
           ∧ Event.code e0 = upper code)
  ∧ (∀ e, e ∈ Db.event s → Event.code e = code →
     (∀ e', e' ∈ Db.event s → Event.code e' ≠ upper code) →
     ∃ e0, get_event_by_code code w = (Ok (serialize_event e0), w)
           ∧ find_one (has code) (Db.event s) = Some e0
           ∧ Event.code e0 = code)
  ∧ ((∀ e, e ∈ Db.event s →
        Event.code e ≠ upper code ∧ Event.code e ≠ code) →
     get_event_by_code code w
     = (Err (HTTPException 404 "Event not found"), w)).
Proof.
  intros w has _. subst w. rewrite get_event_by_code_connected.
  unfold event_with_code. subst has. cbn beta. split_and!.
  - intros e He Hcode.
    destruct (find_one_elem
                (λ e : Event.doc ObjectId datetime, bool_decide (Event.code e = upper code))
                (Db.event s) e He) as [e0 He0];
      [cbn beta; by apply bool_decide_eq_true|].
    exists e0. split_and!; [by rewrite He0|exact He0|].
    apply find_one_Some in He0 as [Hq _]. by apply bool_decide_eq_true in Hq.
  - intros e He Hcode Hnone.
    rewrite (find_one_not_elem
               (λ e : Event.doc ObjectId datetime, bool_decide (Event.code e = upper code)))
      by (intros e' He'; apply bool_decide_eq_false; by apply Hnone).
    destruct (find_one_elem
                (λ e : Event.doc ObjectId datetime, bool_decide (Event.code e = code))
                (Db.event s) e He) as [e0 He0];
      [cbn beta; by apply bool_decide_eq_true|].
    exists e0. split_and!; [by rewrite He0|exact He0|].
    apply find_one_Some in He0 as [Hq _]. by apply bool_decide_eq_true in Hq.
  - intros Hnone.
    rewrite (find_one_not_elem
               (λ e : Event.doc ObjectId datetime, bool_decide (Event.code e = upper code)))
      by (intros e' He'; apply bool_decide_eq_false; by apply Hnone).
    by rewrite (find_one_not_elem
                  (λ e : Event.doc ObjectId datetime, bool_decide (Event.code e = code)))
      by (intros e' He'; apply bool_decide_eq_false; by apply Hnone).
Qed.

(** Witness: the code of the stored event, asked for in lower case. *)
Lemma get_event_by_code_lookup_witness :
  ∃ e0,
    get_event_by_code "dkry5c" (World (Connected one_event_db) (λ _, O))
    = (Ok (serialize_event e0), World (Connected one_event_db) (λ _, O))
    ∧ Event.code e0 = "DKRY5C".
Proof.
  destruct (get_event_by_code_lookup "dkry5c" one_event_db (λ _, O))
    as (Hupper & _); [reflexivity|].
  destruct (Hupper an_event_doc) as (e0 & Hrun & _ & Hcode);
    [by apply list_elem_of_singleton|reflexivity|].
  by exists e0.
Defined.

(** ** What a request writes *)

Lemma upload_media_connected payload s rnd :
  let media_doc :=
    Media.mk (fresh_ObjectId (doc_id <$> Db.media s)) None
      (UploadMedia.event_id payload) (UploadMedia.user_id payload)
      (UploadMedia.url payload) (UploadMedia.media_type payload)
      (UploadMedia.challenge payload) (Some 0) (Some 0) in
  upload_media payload (World (Connected s) rnd)
  = match ObjectId_parse (UploadMedia.event_id payload) with
    | None =>
        (Err (HTTPException 400 "Invalid event id"), World (Connected s) rnd)
    | Some obj_id =>
        match find_one (by_parsed obj_id) (Db.event s) with
        | None =>
            (Err (HTTPException 404 "Event not found"),
             World (Connected s) rnd)
        | Some _ =>
            (Ok (serialize_media media_doc),
             World (Connected
               (Db.mk (Db.event s) (Db.media s ++ [media_doc]) (Db.comment s)
                  (Db.like s) (Db.userprofile s))) rnd)
        end
    end.
Proof.
  unfold upload_media. api_unfold. cbn -[find_one].
  destruct (ObjectId_parse _) as [obj_id|]; cbn -[find_one]; [|done].
  by destruct (find_one (by_parsed obj_id) (Db.event s)).
Qed.

Lemma database_eta (s : database) :
  Db.mk (Db.event s) (Db.media s) (Db.comment s) (Db.like s) (Db.userprofile s)
  = s.
Proof. by destruct s. Qed.

Lemma route_store_effect r s rnd :
  ∃ s', db (route r (World (Connected s) rnd)).2 = Connected s'
        ∧ store_effect r s s'.
Proof.
  pose proof (reading_routes_world (World (Connected s) rnd))
    as (Hcode & Hevent & Hmedia & Hcomments & Huser).
  destruct r; cbn [route]; rewrite fmap_snd.
  - rewrite create_event_connected. eexists. split; [done|].
    by eapply effect_created.
  - rewrite explore_events_connected. eexists. split; [done|].
    by constructor 1.
  - destruct (event_with_code (JoinEvent.code payload) (Db.event s)) eqn:Hev.
    + rewrite (join_event_found _ _ _ _ Hev). eexists. split; [done|].
      by eapply effect_joined.
    + rewrite (join_event_not_found _ _ _ Hev). eexists. split; [done|].
      by constructor 1.
  - rewrite Hcode. eexists. split; [done|]. by constructor 1.
  - rewrite Hevent. eexists. split; [done|]. by constructor 1.
  - rewrite upload_media_connected. cbn zeta.
    destruct (ObjectId_parse _) as [obj_id|] eqn:Hid;
      [|eexists; split; [done|]; by constructor 1].
    destruct (find_one (by_parsed obj_id) (Db.event s)) eqn:Hev;
      [|eexists; split; [done|]; by constructor 1].
    destruct obj_id as [obj_id|binary]; [|by rewrite find_one_Fewer in Hev].
    eexists. split; [done|].
    eapply effect_uploaded; [done|by apply ObjectId_parse_Twelve|exact Hev|done].
  - rewrite Hmedia. eexists. split; [done|]. by constructor 1.
  - destruct payload as [user_id].
    destruct (ObjectId_of_str media_id) as [obj_id|] eqn:Hid.
    + destruct (find_one (by_id obj_id) (Db.media s)) as [media|] eqn:Hm.
      * rewrite (toggle_like_found _ _ _ _ _ _ Hid Hm).
        destruct (find_one (like_q media_id user_id) (Db.like s)) eqn:Hl;
          (eexists; split; [done|]).
        -- by eapply effect_unliked.
        -- by eapply effect_liked.
      * rewrite (toggle_like_absent _ _ (Twelve obj_id) _ rnd
                   (ObjectId_of_str_Some _ _ Hid) Hm).
        eexists. split; [done|]. by constructor 1.
    + destruct (toggle_like_no_ObjectId media_id (ToggleLike.mk user_id)
                  s rnd Hid) as [f ->].
      eexists. split; [done|]. by constructor 1.
  - rewrite Hcomments. eexists. split; [done|]. by constructor 1.
  - destruct (ObjectId_of_str media_id) as [obj_id|] eqn:Hid.
    + destruct (find_one (by_id obj_id) (Db.media s)) as [media|] eqn:Hm.
      * rewrite (add_comment_found _ payload _ _ _ rnd Hid Hm).
        eexists. split; [done|]. by eapply effect_commented.
      * rewrite (add_comment_absent _ payload _ _ rnd Hid Hm).
        eexists. split; [done|]. by constructor 1.
    + destruct (add_comment_no_ObjectId media_id payload s rnd Hid)
        as [f ->].
      eexists. split; [done|]. by constructor 1.
  - rewrite Huser. eexists. split; [done|]. by constructor 1.
  - unfold update_user. api_unfold.
    destruct payload as [[?|] [?|] [?|]]; cbn;
      repeat (match goal with
              | |- context [match find_one ?q ?coll with _ => _ end] =>
                  destruct (find_one q coll)
              | |- context [match List.find ?q ?coll with _ => _ end] =>
                  destruct (List.find q coll)
              end; cbn);
      (eexists; split; [done|]);
      first [by constructor 1 | by eapply effect_user_updated].
Qed.

(** ** What no request does to a Media or an Event *)

Lemma update_one_core {A B} (core : A → B) (q : A → bool) upd (coll : list A) :
  (∀ d, core (upd d) = core d) →
  length (update_one q upd coll) = length coll
  ∧ ∀ (i : nat) (d : A),
      coll !! i = Some d →
      ∃ d', update_one q upd coll !! i = Some d' ∧ core d' = core d.
Proof.
  intros Hcore. split.
  - induction coll as [|d coll IH]; cbn; [done|]. destruct (q d); cbn; lia.
  - intros i d Hi.
    destruct (update_one_lookup q upd _ _ _ Hi) as (d' & Hi' & Hcase).
    exists d'. split; [done|]. by destruct Hcase as [->|[-> _]].
Qed.

(** Whatever the request, on a connected store every Media document stays
    at its place in the collection and keeps every field except the two
    counters: no route deletes a Media or rewrites its [_id], [event_id],
    [user_id], [url], [media_type], [challenge] or [created_at]. *)
Theorem media_fields_are_kept (r : request) (s : database) (rnd : nat → nat) :
  ∃ s',
    db (route r (World (Connected s) rnd)).2 = Connected s'
    ∧ (length (Db.media s) ≤ length (Db.media s'))%nat
    ∧ ∀ (i : nat) (m : Media.t),
        Db.media s !! i = Some m →
        ∃ m' : Media.t, Db.media s' !! i = Some m' ∧ media_core m' = media_core m.
Proof.
  destruct (route_store_effect r s rnd) as (s' & Hs' & Heff).
  exists s'. split; [done|].
  destruct Heff as [->| | | | | | |]; subst; cbn [Db.media];
    try (split; [done|]; intros i m Hi; by exists m).
  - split; [rewrite length_app; lia|]. intros i m Hi. exists m.
    split; [by apply lookup_app_l_Some|done].
  - edestruct (update_one_core media_core) as [-> Hkept]; [|by split]. done.
  - edestruct (update_one_core media_core) as [-> Hkept]; [|by split]. done.
  - edestruct (update_one_core media_core) as [-> Hkept]; [|by split]. done.
Qed.

(** Whatever the request, on a connected store whose events have distinct
    [_id]s every Event stays at its place and keeps every field except
    [participants], and its set of participants can only grow: no route
    removes an Event, edits it, or takes a participant out.  The [_id]s
    stay distinct. *)
Theorem events_only_gain_participants (r : request) (s : database)
    (rnd : nat → nat) :
  NoDup (doc_id <$> Db.event s) →
  ∃ s',
    db (route r (World (Connected s) rnd)).2 = Connected s'
    ∧ NoDup (doc_id <$> Db.event s')
    ∧ ∀ (i : nat) (e : Event.t),
        Db.event s !! i = Some e →
        ∃ e' : Event.t,
          Db.event s' !! i = Some e'
          ∧ event_core e' = event_core e
          ∧ participant_set e ⊆ participant_set e'.
Proof.
  intros Hnd. destruct (route_store_effect r s rnd) as (s' & Hs' & Heff).
  exists s'. split; [done|].
  destruct Heff as [->|payload code _ ->|payload event _ Hev ->| | | | |]; subst;
    cbn [Db.event]; try (split; [done|]; intros i e Hi; by exists e).
  - split.
    + rewrite fmap_app. apply NoDup_app. split_and!; [done| |apply NoDup_singleton].
      intros oid Hold ->%list_elem_of_singleton.
      by apply fresh_ObjectId_not_elem in Hold.
    + intros i e Hi. exists e. split; [by apply lookup_app_l_Some|done].
  - split; [unfold joined_events; by rewrite fmap_update_one|].
    intros i e Hi. unfold joined_events.
    destruct (update_one_lookup (by_id (Event._id event))
                (Event.set_participants
                   (joined_participants event (JoinEvent.user_id payload)))
                _ _ _ Hi) as (e' & Hi' & Hcase).
    exists e'. split; [done|]. destruct Hcase as [->|[-> Hfirst]]; [done|].
    split; [done|]. rewrite participant_set_set_participants.
    rewrite joined_participants_set.
    apply find_one_Some in Hfirst as [Hq He].
    assert (e = event) as ->; [|set_solver].
    apply (NoDup_by_id (Db.event s)); [done| |done|done].
    by eapply event_with_code_Some.
Qed.

(** Witness: a second user joins an event that has one participant. *)
Lemma events_only_gain_participants_witness :
  ∃ s' e',
    db (route (POST_events_join (JoinEvent.mk "dkry5c" "u2" None))
          (World (Connected joined_once_db) (λ _, O))).2 = Connected s'
    ∧ Db.event s' !! 0%nat = Some e'
    ∧ Event.title e' = "Beach Day"
    ∧ ({[ "u1" ]} : gset string) ⊆ participant_set e'.
Proof.
  destruct (events_only_gain_participants
              (POST_events_join (JoinEvent.mk "dkry5c" "u2" None))
              joined_once_db (λ _, O)) as (s' & Hs' & _ & Hkept).
  { apply NoDup_singleton. }
  destruct (Hkept 0%nat _ eq_refl) as (e' & Hi & Hcore & Hsub).
  exists s', e'. split_and!; [done|done| |].
  - by apply (f_equal Event.title) in Hcore.
  - etrans; [|exact Hsub]. by vm_compute.
Defined.

(** ** Profiles *)

Lemma upsert_profiles user_id upd new (coll : list Userprofile.t) :
  (∀ p, Userprofile.user_id (upd p) = Userprofile.user_id p) →
  (∀ _id, Userprofile.user_id (new _id) = user_id) →
  NoDup (Userprofile.user_id <$> coll) →
  let coll' :=
    update_one_upsert (λ p, bool_decide (Userprofile.user_id p = user_id))
      upd new coll in
  NoDup (Userprofile.user_id <$> coll')
  ∧ ∀ (i : nat) (p : Userprofile.t),
      coll !! i = Some p →
      ∃ p', coll' !! i = Some p'
            ∧ (p' = p ∨ p' = upd p ∧ Userprofile.user_id p = user_id).
Proof.
  intros Hupd Hnew Hnd coll'. subst coll'. unfold update_one_upsert.
  match goal with
  | |- context [find_one ?q coll] =>
      destruct (find_one q coll) as [p0|] eqn:Hp0
  end.
  - split; [by rewrite fmap_update_one|]. intros i p Hi.
    destruct (update_one_lookup
                (λ p, bool_decide (Userprofile.user_id p = user_id)) upd
                _ _ _ Hi) as (p' & Hi' & Hcase).
    exists p'. split; [done|]. destruct Hcase as [->|[-> Hfirst]]; [by left|].
    right. split; [done|]. apply find_one_Some in Hfirst as [Hq _].
    by apply bool_decide_eq_true in Hq.
  - cbn. split.
    + rewrite fmap_app. apply NoDup_app. split_and!; [done| |apply NoDup_singleton].
      intros u (p & -> & Hp)%list_elem_of_fmap_1 Heq%list_elem_of_singleton.
      cbn in Heq. rewrite Hnew in Heq.
      pose proof (find_one_None_elem _ _ p Hp0 Hp) as Hq.
      by apply bool_decide_eq_false in Hq.
    + intros i p Hi. exists p. split; [by apply lookup_app_l_Some|by left].
Qed.

(** On a connected store with at most one profile per [user_id], whatever
    the request: there is still at most one profile per [user_id]; no
    profile is removed or moved; and a profile is left exactly as it was
    unless the request is an update of that very user, which keeps its
    [_id] and [user_id].  In particular join-event never rewrites a
    profile that exists. *)
Theorem profiles_stay_unique (r : request) (s : database) (rnd : nat → nat) :
  NoDup (Userprofile.user_id <$> Db.userprofile s) →
  ∃ s',
    db (route r (World (Connected s) rnd)).2 = Connected s'
    ∧ NoDup (Userprofile.user_id <$> Db.userprofile s')
    ∧ ∀ (i : nat) (p : Userprofile.t),
        Db.userprofile s !! i = Some p →
        ∃ p' : Userprofile.t,
          Db.userprofile s' !! i = Some p'
          ∧ Userprofile._id p' = Userprofile._id p
          ∧ Userprofile.user_id p' = Userprofile.user_id p
          ∧ (p' = p
             ∨ ∃ payload, r = PUT_user (Userprofile.user_id p) payload).
Proof.
  intros Hnd. destruct (route_store_effect r s rnd) as (s' & Hs' & Heff).
  exists s'. split; [done|]. clear Hs'.
  destruct Heff as [->| |payload event _ Hev ->| | | |
                   |user_id payload -> Hp ->];
    subst; cbn [Db.userprofile];
    try (split; [done|]; intros i p Hi; exists p; by split_and!; [..|left]).
  - unfold joined_profiles.
    match goal with
    | |- context [update_one_upsert _ ?upd ?new _] =>
        destruct (upsert_profiles (JoinEvent.user_id payload) upd new
                    (Db.userprofile s)) as [Hnd' Hkept];
          [done|done|exact Hnd|]
    end.
    split; [exact Hnd'|]. intros i p Hi.
    destruct (Hkept i p Hi) as (p' & Hi' & [->|[-> _]]);
      exists p; by split_and!; [..|left].
  - match goal with
    | |- context [update_one_upsert _ ?upd ?new _] =>
        destruct (upsert_profiles user_id upd new (Db.userprofile s))
          as [Hnd' Hkept]; [by intros []|done|exact Hnd|]
    end.
    split; [exact Hnd'|]. intros i p Hi.
    destruct (Hkept i p Hi) as (p' & Hi' & [->|[-> Hu]]);
      eexists; (split; [exact Hi'|]); split_and!; try done; [by left|].
    right. subst user_id. by eexists.
Qed.

(** Witness: a third user joins the store in which ["u1"] has a profile. *)
Lemma profiles_stay_unique_witness :
  ∃ s',
    db (route (POST_events_join (JoinEvent.mk "dkry5c" "u2" (Some "Zoe")))
          (World (Connected joined_once_db) (λ _, O))).2 = Connected s'
    ∧ NoDup (Userprofile.user_id <$> Db.userprofile s')
    ∧ Userprofile.username <$> Db.userprofile s' = [Some "Guest"; Some "Zoe"].
Proof.
  destruct (profiles_stay_unique
              (POST_events_join (JoinEvent.mk "dkry5c" "u2" (Some "Zoe")))
              joined_once_db (λ _, O)) as (s' & Hs' & Hnd & _).
  { apply NoDup_singleton. }
  exists s'. split_and!; [done..|].
  vm_compute in Hs'. by injection Hs' as <-.
Defined.

(** ** Reading a user after a write *)

Lemma get_user_connected user_id s rnd :
  get_user user_id (World (Connected s) rnd)
  = (Ok (UserOut.mk
           (match find_one (λ p, bool_decide (Userprofile.user_id p = user_id))
                    (Db.userprofile s) with
            | Some prof => serialize_profile prof
            | None =>
                Userprofile.mk None user_id (Some "Guest") None None (Some [])
            end)
           (serialize_event <$>
              find (λ e, bool_decide
                           (user_id ∈ default [] (Event.participants e)))
                (Db.event s))
           (count_documents (λ m, bool_decide (Media.user_id m = user_id))
              (Db.media s))),
     World (Connected s) rnd).
Proof. unfold get_user. api_unfold. reflexivity. Qed.

Lemma elem_of_find {A} (q : A → bool) (coll : list A) d :
  d ∈ find q coll ↔ d ∈ coll ∧ q d = true.
Proof.
  unfold find. rewrite !list_elem_of_In, filter_In. done.
Qed.

(** After a join that succeeded, get-user for the user who joined answers
    with the stored profile of that user (the one that was there before
    the join, or the one the join made), and the events it lists as joined
    include the event the join returned. *)
Theorem join_event_then_get_user (payload : JoinEvent.t) (s : database)
    (rnd : nat → nat) (e1 : Event.json) (w1 : world) :
  join_event payload (World (Connected s) rnd) = (Ok e1, w1) →
  ∃ out p,
    get_user (JoinEvent.user_id payload) w1 = (Ok out, w1)
    ∧ e1 ∈ UserOut.joined_events out
    ∧ UserOut.profile out = serialize_profile p
    ∧ Userprofile.user_id p = JoinEvent.user_id payload
    ∧ match find_one
              (λ p, bool_decide
                      (Userprofile.user_id p = JoinEvent.user_id payload))
              (Db.userprofile s) with
      | Some old => p = old
      | None =>
          Userprofile.username p
          = Some (if truthy (JoinEvent.username payload)
                  then default EmptyString (JoinEvent.username payload)
                  else "Guest")
          ∧ Userprofile.following_events p = Some []
      end.
Proof.
  intros Hjoin. set (user_id := JoinEvent.user_id payload) in *.
  destruct (event_with_code (JoinEvent.code payload) (Db.event s))
    as [event|] eqn:Hev; [|by rewrite join_event_not_found in Hjoin].
  rewrite (join_event_found _ _ _ _ Hev) in Hjoin. fold user_id in Hjoin.
  destruct (find_one (by_id (Event._id event))
              (joined_events event user_id (Db.event s)))
    as [d|] eqn:Hd; [|discriminate].
  injection Hjoin as <- <-. rewrite get_user_connected.
  cbn [Db.event Db.media Db.userprofile]. fold user_id.
  destruct (joined_profiles_found payload (Db.userprofile s)) as [p Hp].
  fold user_id in Hp. rewrite Hp.
  eexists _, p. split; [reflexivity|]. cbn [UserOut.joined_events UserOut.profile].
  split_and!; [| done | |].
  - apply list_elem_of_fmap_2, elem_of_find.
    pose proof (find_one_Some _ _ _ Hd) as [_ Hin]. split; [done|].
    apply bool_decide_eq_true.
    (* the document found by [_id] is the one the join wrote *)
    destruct (find_one_elem (by_id (Event._id event)) (Db.event s) event)
      as [d0 Hd0]; [by eapply event_with_code_Some|by apply by_id_true|].
    unfold joined_events in Hd.
    rewrite (find_one_update_one _ _ _ d0 Hd0) in Hd
      by (by apply find_one_Some in Hd0 as [? _]).
    injection Hd as <-. cbn.
    unfold joined_participants. apply elem_of_elements. set_solver.
  - apply find_one_Some in Hp as [Hq _]. by apply bool_decide_eq_true in Hq.
  - unfold joined_profiles, update_one_upsert in Hp. fold user_id in Hp.
    match type of Hp with
    | context [match find_one ?q (Db.userprofile s) with _ => _ end] =>
        change (find_one
                  (λ p, bool_decide (Userprofile.user_id p = user_id))
                  (Db.userprofile s))
          with (find_one q (Db.userprofile s));
        destruct (find_one q (Db.userprofile s)) as [old|] eqn:Hold
    end.
    + rewrite update_one_id in Hp. congruence.
    + cbn in Hp. rewrite find_one_app_None in Hp by done. cbn in Hp.
      rewrite bool_decide_eq_true_2 in Hp by done. by injection Hp as <-.
Qed.

(** Witness: the first join of the store with one event. *)
Lemma join_event_then_get_user_witness :
  ∃ e1 w1 out,
    join_event (JoinEvent.mk "dkry5c" "u1" None)
      (World (Connected one_event_db) (λ _, O)) = (Ok e1, w1)
    ∧ get_user "u1" w1 = (Ok out, w1)
    ∧ e1 ∈ UserOut.joined_events out
    ∧ Userprofile.username (UserOut.profile out) = Some "Guest".
Proof.
  edestruct (join_event_then_get_user (JoinEvent.mk "dkry5c" "u1" None)
               one_event_db (λ _, O))
    as (out & p & Hget & Hin & Hprof & _ & Hnew); [vm_compute; reflexivity|].
  eexists _, _, out. split; [vm_compute; reflexivity|].
  split; [exact Hget|]. split; [exact Hin|].
  rewrite Hprof. cbn in Hnew. destruct Hnew as [Hnew _]. exact Hnew.
Defined.

(** ** Counting an upload *)

(** After an upload that succeeded: get-user counts one more upload for
    the uploader and the same number for everybody else; and the
    [media_count] that explore-events gives for an event grows by one
    exactly when the [event_id] of the upload is, character for
    character, the lower-case text of that event's [_id].  An upload
    whose [event_id] spells the same ObjectId with upper-case hex digits
    is accepted and stored, and counted for no event. *)
Theorem upload_media_is_counted (payload : UploadMedia.t) (s : database)
    (rnd : nat → nat) (m : Media.json) (w1 : world) :
  upload_media payload (World (Connected s) rnd) = (Ok m, w1) →
  ∃ s1,
    w1 = World (Connected s1) rnd
    ∧ (∀ user_id, ∃ out0 out1,
         get_user user_id (World (Connected s) rnd)
           = (Ok out0, World (Connected s) rnd)
         ∧ get_user user_id w1 = (Ok out1, w1)
         ∧ UserOut.uploads_count out1
           = (UserOut.uploads_count out0
              + if bool_decide (UploadMedia.user_id payload = user_id)
                then 1 else 0)%nat)
    ∧ (∀ e : Event.t,
         ExploreItem.media_count (explore_item s1 e)
         = (ExploreItem.media_count (explore_item s e)
            + if bool_decide (UploadMedia.event_id payload
                              = str_of_ObjectId (Event._id e))
              then 1 else 0)%nat).
Proof.
  rewrite upload_media_connected. cbn zeta.
  destruct (ObjectId_parse _) as [obj_id|]; [|discriminate].
  destruct (find_one (by_parsed obj_id) (Db.event s)); [|discriminate].
  intros [= <- <-]. eexists. split; [reflexivity|]. split.
  - intros user_id. rewrite !get_user_connected. eexists _, _.
    split; [reflexivity|]. split; [reflexivity|].
    cbn [UserOut.uploads_count Db.media]. by rewrite count_documents_app.
  - intros e. unfold explore_item. cbn [ExploreItem.media_count Db.media].
    by rewrite count_documents_app.
Qed.

(** Witness: an upload that spells the [_id] of the event with an
    upper-case [A]: it succeeds, the uploader has one upload, and the
    event still counts no media. *)
Lemma upload_media_is_counted_witness :
  ∃ m s1 out1,
    upload_media
      (UploadMedia.mk "00000000000000000000000A" "u1" "http://img/1" "photo"
         None)
      (World (Connected lettered_event_db) (λ _, O))
    = (Ok m, World (Connected s1) (λ _, O))
    ∧ get_user "u1" (World (Connected s1) (λ _, O))
      = (Ok out1, World (Connected s1) (λ _, O))
    ∧ UserOut.uploads_count out1 = 1%nat
    ∧ Forall (λ e, ExploreItem.media_count (explore_item s1 e) = 0%nat)
        (Db.event s1).
Proof.
  edestruct (upload_media_is_counted
               (UploadMedia.mk "00000000000000000000000A" "u1" "http://img/1"
                  "photo" None)
               lettered_event_db (λ _, O))
    as (s1 & Hw1 & Huser & Hevent); [vm_compute; reflexivity|].
  injection Hw1 as <-.
  destruct (Huser "u1") as (out0 & out1 & H0 & H1 & Hcount).
  eexists _, _, out1. split; [vm_compute; reflexivity|].
  split; [exact H1|]. split.
  - rewrite Hcount. vm_compute in H0. by injection H0 as <-.
  - repeat constructor.
Defined.

(** ** No route writes [created_at] *)








(** ** One user, two spellings of a media id *)

(** [ObjectId] reads hex digits of either case, and the Like rows are
    keyed by the text of [media_id].  So when [a] and [b] are two
    different spellings of the [_id] of a stored Media whose counter is
    not negative and below [2^63 - 2], and the user has liked it under
    neither, a toggle under
    [a] followed by a toggle under [b] by the same user does not take the
    like back: both succeed, the counter ends two higher, and the user
    has two more Like rows of that Media. *)
Theorem toggle_like_two_spellings (s : database) (rnd : nat → nat)
    (a b user_id : string) (obj_id : ObjectId) (media : Media.t) :
  let mine (l : Like.t) :=
    refers_to obj_id l && bool_decide (Like.user_id l = user_id) in
  ObjectId_of_str a = Some obj_id →
  ObjectId_of_str b = Some obj_id →
  a ≠ b →
  find_one (by_id obj_id) (Db.media s) = Some media →
  find_one (like_q a user_id) (Db.like s) = None →
  find_one (like_q b user_id) (Db.like s) = None →
  (0 ≤ likes media)%Z →
  (likes media < 2 ^ 63 - 2)%Z →
  ∃ m1 s1 m2 s2,
    toggle_like a (ToggleLike.mk user_id) (World (Connected s) rnd)
      = (Ok m1, World (Connected s1) rnd)
    ∧ toggle_like b (ToggleLike.mk user_id) (World (Connected s1) rnd)
      = (Ok m2, World (Connected s2) rnd)
    ∧ Media.likes_count m1 = Some (likes media + 1)%Z
    ∧ Media.likes_count m2 = Some (likes media + 2)%Z
    ∧ count_documents mine (Db.like s2)
      = (count_documents mine (Db.like s) + 2)%nat.
Proof.
  intros mine Ha Hb Hab Hm Hla Hlb Hlikes _.
  rewrite (toggle_like_found _ _ _ _ _ _ Ha Hm), Hla. cbn zeta iota beta.
  set (media1 := Media.set_likes_count (Z.max 0 (likes media + 1)) media).
  set (like1 := Db.like s ++ [_]).
  pose proof (find_one_Some _ _ _ Hm) as [Hq _].
  assert (find_one (by_id obj_id)
            (update_one (by_id obj_id)
               (Media.set_likes_count (Z.max 0 (likes media + 1)))
               (Db.media s)) = Some media1) as Hm1.
  { by apply find_one_update_one. }
  assert (find_one (like_q b user_id) like1 = None) as Hlb1.
  { subst like1. rewrite find_one_app_None by done.
    unfold like_q. cbn. by rewrite (bool_decide_eq_false_2 (a = b)). }
  set (s1 := Db.mk (Db.event s)
               (update_one (by_id obj_id)
                  (Media.set_likes_count (Z.max 0 (likes media + 1)))
                  (Db.media s))
               (Db.comment s) like1 (Db.userprofile s)).
  exists (serialize_media media1), s1.
  rewrite (toggle_like_found b user_id obj_id media1 s1 rnd Hb Hm1).
  cbn [Db.like Db.media s1]. rewrite Hlb1. cbn zeta iota beta.
  eexists _, _. split_and!; [reflexivity|reflexivity| | |].
  - cbn. f_equal. lia.
  - cbn. f_equal. unfold likes in *. cbn. lia.
  - cbn [Db.like]. subst like1. rewrite !count_documents_app. subst mine. cbn.
    unfold refers_to. cbn. rewrite Ha, Hb.
    rewrite !bool_decide_eq_true_2 by done. cbn. lia.
Qed.

(** Witness: the media of [fresh_media_db], liked as [...0a] and then as
    [...0A]. *)
Lemma toggle_like_two_spellings_witness :
  ∃ m1 s1 m2 s2,
    toggle_like "00000000000000000000000a" (ToggleLike.mk "u1")
      (World (Connected fresh_media_db) (λ _, O))
      = (Ok m1, World (Connected s1) (λ _, O))
    ∧ toggle_like "00000000000000000000000A" (ToggleLike.mk "u1")
        (World (Connected s1) (λ _, O))
      = (Ok m2, World (Connected s2) (λ _, O))
    ∧ Media.likes_count m2 = Some 2%Z
    ∧ length (Db.like s2) = 2%nat.
Proof.
  destruct (toggle_like_two_spellings fresh_media_db (λ _, O)
              "00000000000000000000000a" "00000000000000000000000A" "u1"
              10%N a_media_doc)
    as (m1 & s1 & m2 & s2 & H1 & H2 & _ & Hm2 & _);
    [reflexivity|reflexivity|discriminate|reflexivity|reflexivity
    |reflexivity|by vm_compute|vm_compute; reflexivity|].
  exists m1, s1, m2, s2. split_and!; [exact H1|exact H2|exact Hm2|].
  vm_compute in H1. injection H1 as _ <-.
  vm_compute in H2. by injection H2 as _ <-.
Defined.

(** ** Comments: written, then listed *)





(** ** Profiles: written, then read *)

Lemma update_user_connected user_id payload s rnd :
  payload ≠ UpdateUser.mk None None None →
  let coll' :=
    update_one_upsert
      (λ p, bool_decide (Userprofile.user_id p = user_id))
      (Userprofile.set_fields (UpdateUser.username payload)
         (UpdateUser.avatar_url payload) (UpdateUser.bio payload))
      (λ _id, Userprofile.mk _id user_id (UpdateUser.username payload)
         (UpdateUser.avatar_url payload) (UpdateUser.bio payload) None)
      (Db.userprofile s) in
  update_user user_id payload (World (Connected s) rnd)
  = (match find_one (λ p, bool_decide (Userprofile.user_id p = user_id))
             coll' with
     | Some p => Ok (Some (serialize_profile p))
     | None => Err (Uncaught AttributeError)
     end,
     World (Connected
       (Db.mk (Db.event s) (Db.media s) (Db.comment s) (Db.like s) coll'))
       rnd).
Proof.
  intros Hsome coll'. subst coll'.
  destruct payload as [[u|] [a|] [b|]]; try done;
    unfold update_user; api_unfold; cbn; unfold find_one;
    by destruct (List.find _ _).
Qed.

(** An update-user that names at least one field succeeds on a connected
    store and returns the profile that get-user then returns for that
    user.  In it every field the payload names has the payload's value;
    a field it does not name, [following_events] and the [_id] are those
    of the first profile stored for the user, when there was one, and
    otherwise the unnamed fields and [following_events] are absent. *)
Theorem update_user_then_get_user (user_id : string) (payload : UpdateUser.t)
    (s : database) (rnd : nat → nat) :
  let old :=
    find_one (λ p, bool_decide (Userprofile.user_id p = user_id))
      (Db.userprofile s) in
  let written (named : option string) (field : Userprofile.t → option string) :=
    match named with Some v => Some v | None => old ≫= field end in
  payload ≠ UpdateUser.mk None None None →
  ∃ (p : Userprofile.t) s1 out,
    update_user user_id payload (World (Connected s) rnd)
      = (Ok (Some (serialize_profile p)), World (Connected s1) rnd)
    ∧ get_user user_id (World (Connected s1) rnd)
      = (Ok out, World (Connected s1) rnd)
    ∧ UserOut.profile out = serialize_profile p
    ∧ Userprofile.user_id p = user_id
    ∧ Userprofile.username p
      = written (UpdateUser.username payload) Userprofile.username
    ∧ Userprofile.avatar_url p
      = written (UpdateUser.avatar_url payload) Userprofile.avatar_url
    ∧ Userprofile.bio p = written (UpdateUser.bio payload) Userprofile.bio
    ∧ Userprofile.following_events p = old ≫= Userprofile.following_events
    ∧ (∀ o, old = Some o → Userprofile._id p = Userprofile._id o).
Proof.
  intros old written Hsome. rewrite update_user_connected by done.
  cbn zeta. unfold update_one_upsert. subst written. fold old.
  destruct old as [o|] eqn:Hold; subst old.
  - pose proof (find_one_Some _ _ _ Hold) as [Hq%bool_decide_eq_true _].
    erewrite find_one_update_one; [|exact Hold|by apply bool_decide_eq_true].
    eexists _, _, _. split; [reflexivity|].
    rewrite get_user_connected. cbn [Db.userprofile].
    erewrite find_one_update_one; [|exact Hold|by apply bool_decide_eq_true].
    split_and!; try reflexivity; cbn.
    + done.
    + by destruct (UpdateUser.username payload).
    + by destruct (UpdateUser.avatar_url payload).
    + by destruct (UpdateUser.bio payload).
    + by intros ? [= <-].
  - cbn [insert_one fst]. rewrite find_one_app_None by done.
    cbn [Userprofile.user_id]. rewrite bool_decide_eq_true_2 by done.
    eexists _, _, _. split; [reflexivity|].
    rewrite get_user_connected. cbn [Db.userprofile].
    rewrite find_one_app_None by done.
    cbn [Userprofile.user_id]. rewrite bool_decide_eq_true_2 by done.
    split_and!; try reflexivity; cbn.
    + by destruct (UpdateUser.username payload).
    + by destruct (UpdateUser.avatar_url payload).
    + by destruct (UpdateUser.bio payload).
    + done.
Qed.

(** Witness: ["u1"], whose stored username is ["Guest"], sets a bio. *)
Lemma update_user_then_get_user_witness :
  ∃ (p : Userprofile.t) s1 out,
    update_user "u1" (UpdateUser.mk None None (Some "hello"))
      (World (Connected joined_once_db) (λ _, O))
      = (Ok (Some (serialize_profile p)), World (Connected s1) (λ _, O))
    ∧ get_user "u1" (World (Connected s1) (λ _, O))
      = (Ok out, World (Connected s1) (λ _, O))
    ∧ UserOut.profile out = serialize_profile p
    ∧ Userprofile.username p = Some "Guest"
    ∧ Userprofile.bio p = Some "hello".
Proof.
  destruct (update_user_then_get_user "u1"
              (UpdateUser.mk None None (Some "hello")) joined_once_db (λ _, O))
    as (p & s1 & out & Hup & Hget & Hout & _ & Hname & _ & Hbio & _);
    [discriminate|].
  by exists p, s1, out.
Defined.
